(** * ReplayChatCompletionClient

    A shallow embedding of
    [autogen_ext/models/replay/_replay_chat_completion_client.py]:
    a chat completion client that replays a fixed list of responses,
    with word-count token accounting and a simulated streaming mode. *)

From Stdlib Require Import String Ascii Bool ZArith NArith Lia List.
Import ListNotations.

Local Open Scope Z_scope.

(** ** Python strings and [str.split()] *)

(** A Python [str] is a sequence of Unicode code points. *)
Definition char := N.
Definition str := list char.

(** ASCII literals, for the examples. *)
Definition py (s : string) : str := map N_of_ascii (list_ascii_of_string s).

Definition SPACE : char := 32%N.

(** [str.isspace] on one code point: the code points CPython treats as
    whitespace, which are the separators of [str.split()] without
    arguments. *)
Definition is_space (ch : char) : bool :=
  existsb (N.eqb ch)
    [9; 10; 11; 12; 13; 28; 29; 30; 31; 32; 133; 160; 5760;
     8232; 8233; 8239; 8287; 12288]%N
  || ((8192 <=? ch)%N && (ch <=? 8202)%N).

(** [split_from word s] scans [s] from left to right; [word] is the run of
    non-whitespace code points read since the last separator. Runs of
    whitespace separate words and produce no empty word. *)
Fixpoint split_from (word s : str) : list str :=
  match s with
  | [] => match word with [] => [] | _ :: _ => [word] end
  | ch :: rest =>
      if is_space ch then
        match word with
        | [] => split_from [] rest
        | _ :: _ => word :: split_from [] rest
        end
      else split_from (word ++ [ch]) rest
  end.

(** [s.split()] *)
Definition split (s : str) : list str := split_from [] s.

(** [" ".join(words)] *)
Fixpoint join (words : list str) : str :=
  match words with
  | [] => []
  | [w] => w
  | w :: ws => w ++ SPACE :: join ws
  end.

(** [len(l)] as a Python integer. *)
Definition len {A : Type} (l : list A) : Z := Z.of_nat (length l).

(** [enumerate(l)], counting from [i]. *)
Fixpoint enumerate_from {A : Type} (i : nat) (l : list A) : list (nat * A) :=
  match l with
  | [] => []
  | x :: l' => (i, x) :: enumerate_from (S i) l'
  end.

Definition enumerate {A : Type} (l : list A) : list (nat * A) :=
  enumerate_from 0 l.

(** ** Exceptions and log records *)

Inductive Error :=
| ValueError (msg : string)
| IndexError.

Inductive Res (A : Type) :=
| Ok (a : A)
| Raise (e : Error).
Arguments Ok {A} a.
Arguments Raise {A} e.

(** What the module writes to its logger. *)
Inductive LogRecord :=
| Warning (msg : string).

Definition Exhausted : Error := ValueError "No more mock responses available".

Definition tool_choice_warning : LogRecord :=
  Warning "tool_choice parameter specified but is ignored in replay mode".

Definition string_content_warning : LogRecord :=
  Warning "Token count has been done only on string content".

(** ** Records of [autogen_core.models]

    The classes below are declared in [autogen_core]; each is given the
    fields this module reads or constructs. *)

Record RequestUsage := {
  prompt_tokens : Z;
  completion_tokens : Z
}.

Inductive ModelFamily :=
| UNKNOWN
| Family (tag : string).

Record ModelInfo := {
  vision : bool;
  function_calling : bool;
  json_output : bool;
  family : ModelFamily;
  structured_output : bool
}.

Definition usage_add (u v : RequestUsage) : RequestUsage :=
  {| prompt_tokens := prompt_tokens u + prompt_tokens v;
     completion_tokens := completion_tokens u + completion_tokens v |}.

Definition usage_zero : RequestUsage :=
  {| prompt_tokens := 0; completion_tokens := 0 |}.

Definition usage_sum (us : list RequestUsage) : RequestUsage :=
  fold_right usage_add usage_zero us.

(** A validator that accepts every descriptor, for the sample clients. *)
Definition accept_all (info : ModelInfo) : Res unit := Ok tt.

Section Replay.

(** Values the client passes around without looking inside: the parts of
    a message content that is not a string, tools, [json_output], the
    values of [extra_create_args], cancellation tokens. *)
Variable Payload : Type.

(** [validate_model_info] of [autogen_core.models]: returns, or raises on
    a descriptor it rejects. *)
Variable validate_model_info : ModelInfo -> Res unit.

Inductive Content :=
| StrContent (s : str)
| OtherContent (parts : list Payload).

Record LLMMessage := {
  message_content : Content
}.

Record CreateResult := {
  finish_reason : string;
  content : Content;
  usage : RequestUsage;
  cached : bool
}.

(** An element of [chat_completions]: [Union[str, CreateResult]]. *)
Inductive Entry :=
| Text (s : str)
| Prebuilt (r : CreateResult).

Inductive ToolChoice :=
| Auto
| Required
| NoChoice
| ChosenTool (t : Payload).

(** The arguments of [create] and [create_stream]. *)
Record CallArgs := {
  messages : list LLMMessage;
  tools : list Payload;
  tool_choice : ToolChoice;
  json_output_arg : option Payload;
  extra_create_args : list (str * Payload);
  cancellation_token : option Payload
}.

(** The dictionary [create] appends to [_create_calls]. *)
Record CallRecord := {
  call_messages : list LLMMessage;
  call_tools : list Payload;
  call_json_output : option Payload;
  call_extra_create_args : list (str * Payload);
  call_cancellation_token : option Payload
}.

Record ReplayChatCompletionClientConfig := {
  config_chat_completions : list Entry;
  config_model_info : option ModelInfo
}.

(** The attributes of a [ReplayChatCompletionClient]. [_total_usage] is
    one object updated in place by [_update_total_usage] and replaced by
    [reset]; [_cur_usage] is replaced at every request. *)
Record Client := {
  chat_completions : list Entry;
  provided_message_count : nat;
  _model_info : ModelInfo;
  _total_available_tokens : Z;
  _cur_usage : RequestUsage;
  _total_usage : RequestUsage;
  _current_index : nat;
  _cached_bool_value : bool;
  _create_calls : list CallRecord
}.

(** ** Construction *)

Definition default_model_info : ModelInfo :=
  {| vision := false;
     function_calling := false;
     json_output := false;
     family := UNKNOWN;
     structured_output := false |}.

(** The object [__init__] leaves behind once [_model_info] is settled. *)
Definition new_client (entries : list Entry) (info : ModelInfo) : Client :=
  {| chat_completions := entries;
     provided_message_count := length entries;
     _model_info := info;
     _total_available_tokens := 10000;
     _cur_usage := {| prompt_tokens := 0; completion_tokens := 0 |};
     _total_usage := {| prompt_tokens := 0; completion_tokens := 0 |};
     _current_index := 0;
     _cached_bool_value := true;
     _create_calls := [] |}.

Definition __init__ (entries : list Entry) (model_info : option ModelInfo)
  : Res Client :=
  match model_info with
  | Some info =>
      match validate_model_info info with
      | Ok _ => Ok (new_client entries info)
      | Raise e => Raise e
      end
  | None => Ok (new_client entries default_model_info)
  end.

(** ** Tokenization *)

(** The three shapes [_tokenize] tells apart: a [str], an object with a
    [content] attribute, a sequence of messages. *)
Inductive TokenizeArg :=
| ArgStr (s : str)
| ArgMessage (m : LLMMessage)
| ArgSequence (ms : list LLMMessage).

(** One message of [_tokenize]: the state is [all_tokens], [total_tokens]
    and the warnings logged so far. *)
Definition tokenize_message (acc : list str * Z * list LogRecord)
  (message : LLMMessage) : list str * Z * list LogRecord :=
  let '(all_tokens, total_tokens, log) := acc in
  match message_content message with
  | StrContent s =>
      let tokens := split s in
      (all_tokens ++ tokens, total_tokens + len tokens, log)
  | OtherContent _ => (all_tokens, total_tokens, log ++ [string_content_warning])
  end.

Definition _tokenize (arg : TokenizeArg) : list str * Z * list LogRecord :=
  match arg with
  | ArgStr s =>
      let tokens := split s in
      ([] ++ tokens, 0 + len tokens, [])
  | ArgMessage m => tokenize_message ([], 0, []) m
  | ArgSequence ms => fold_left tokenize_message ms ([], 0, [])
  end.

(** ** Usage bookkeeping and accessors *)

Definition set_cur_usage (c : Client) (u : RequestUsage) : Client :=
  {| chat_completions := chat_completions c;
     provided_message_count := provided_message_count c;
     _model_info := _model_info c;
     _total_available_tokens := _total_available_tokens c;
     _cur_usage := u;
     _total_usage := _total_usage c;
     _current_index := _current_index c;
     _cached_bool_value := _cached_bool_value c;
     _create_calls := _create_calls c |}.

Definition _update_total_usage (c : Client) : Client :=
  {| chat_completions := chat_completions c;
     provided_message_count := provided_message_count c;
     _model_info := _model_info c;
     _total_available_tokens := _total_available_tokens c;
     _cur_usage := _cur_usage c;
     _total_usage :=
       {| prompt_tokens :=
            prompt_tokens (_total_usage c) + prompt_tokens (_cur_usage c);
          completion_tokens :=
            completion_tokens (_total_usage c) + completion_tokens (_cur_usage c) |};
     _current_index := _current_index c;
     _cached_bool_value := _cached_bool_value c;
     _create_calls := _create_calls c |}.

(** [self._current_index += 1] *)
Definition advance (c : Client) : Client :=
  {| chat_completions := chat_completions c;
     provided_message_count := provided_message_count c;
     _model_info := _model_info c;
     _total_available_tokens := _total_available_tokens c;
     _cur_usage := _cur_usage c;
     _total_usage := _total_usage c;
     _current_index := S (_current_index c);
     _cached_bool_value := _cached_bool_value c;
     _create_calls := _create_calls c |}.

(** [self._create_calls.append(entry)] *)
Definition log_call (c : Client) (entry : CallRecord) : Client :=
  {| chat_completions := chat_completions c;
     provided_message_count := provided_message_count c;
     _model_info := _model_info c;
     _total_available_tokens := _total_available_tokens c;
     _cur_usage := _cur_usage c;
     _total_usage := _total_usage c;
     _current_index := _current_index c;
     _cached_bool_value := _cached_bool_value c;
     _create_calls := _create_calls c ++ [entry] |}.

Definition create_calls (c : Client) : list CallRecord := _create_calls c.
Definition actual_usage (c : Client) : RequestUsage := _cur_usage c.
Definition total_usage (c : Client) : RequestUsage := _total_usage c.
Definition model_info (c : Client) : ModelInfo := _model_info c.

Definition count_tokens (c : Client) (msgs : list LLMMessage) : Z :=
  let '(_, token_count, _) := _tokenize (ArgSequence msgs) in token_count.

Definition remaining_tokens (c : Client) : Z :=
  Z.max 0
    (_total_available_tokens c - prompt_tokens (_total_usage c)
     - completion_tokens (_total_usage c)).

Definition set_cached_bool_value (c : Client) (value : bool) : Client :=
  {| chat_completions := chat_completions c;
     provided_message_count := provided_message_count c;
     _model_info := _model_info c;
     _total_available_tokens := _total_available_tokens c;
     _cur_usage := _cur_usage c;
     _total_usage := _total_usage c;
     _current_index := _current_index c;
     _cached_bool_value := value;
     _create_calls := _create_calls c |}.

Definition reset (c : Client) : Client :=
  {| chat_completions := chat_completions c;
     provided_message_count := provided_message_count c;
     _model_info := _model_info c;
     _total_available_tokens := _total_available_tokens c;
     _cur_usage := {| prompt_tokens := 0; completion_tokens := 0 |};
     _total_usage := {| prompt_tokens := 0; completion_tokens := 0 |};
     _current_index := 0;
     _cached_bool_value := _cached_bool_value c;
     _create_calls := _create_calls c |}.

Definition _to_config (c : Client) : ReplayChatCompletionClientConfig :=
  {| config_chat_completions := chat_completions c;
     config_model_info := Some (_model_info c) |}.

Definition _from_config (config : ReplayChatCompletionClientConfig)
  : Res Client :=
  __init__ (config_chat_completions config) (config_model_info config).

(** ** Requests *)

(** The warning both request paths log first: [tool_choice != "auto"]. *)
Definition warn_tool_choice (choice : ToolChoice) : list LogRecord :=
  match choice with
  | Auto => []
  | _ => [tool_choice_warning]
  end.

Definition call_record (a : CallArgs) : CallRecord :=
  {| call_messages := messages a;
     call_tools := tools a;
     call_json_output := json_output_arg a;
     call_extra_create_args := extra_create_args a;
     call_cancellation_token := cancellation_token a |}.

(** [create]: the value returned or the exception raised, the client
    afterwards, and the records logged. *)
Definition create (c : Client) (a : CallArgs)
  : Res CreateResult * Client * list LogRecord :=
  let log0 := warn_tool_choice (tool_choice a) in
  if (len (chat_completions c) <=? Z.of_nat (_current_index c)) then
    (Raise Exhausted, c, log0)
  else
    match nth_error (chat_completions c) (_current_index c) with
    | None => (Raise IndexError, c, log0)
    | Some response =>
        let '(_, prompt_token_count, log1) := _tokenize (ArgSequence (messages a)) in
        let '(response, c, log2) :=
          match response with
          | Text s =>
              let '(_, output_token_count, log2) := _tokenize (ArgStr s) in
              let c := set_cur_usage c
                         {| prompt_tokens := prompt_token_count;
                            completion_tokens := output_token_count |} in
              ({| finish_reason := "stop";
                  content := StrContent s;
                  usage := _cur_usage c;
                  cached := _cached_bool_value c |}, c, log2)
          | Prebuilt r =>
              let c := set_cur_usage c
                         {| prompt_tokens := prompt_token_count;
                            completion_tokens := completion_tokens (usage r) |} in
              (r, c, [])
          end in
        let c := _update_total_usage c in
        let c := advance c in
        let c := log_call c (call_record a) in
        (Ok response, c, log0 ++ log1 ++ log2)
    end.

(** What [create_stream] yields: [Union[str, CreateResult]]. *)
Inductive Item :=
| Fragment (s : str)
| Final (r : CreateResult).

(** The fragment yielded for token [i] of [output_tokens]. *)
Definition fragment (output_tokens : list str) (i : nat) (token : str) : str :=
  if Z.of_nat i <? len output_tokens - 1 then token ++ [SPACE] else token.

(** The fragments of the [for] loop of [create_stream], in order. *)
Definition fragments (output_tokens : list str) : list str :=
  map (fun it => fragment output_tokens (fst it) (snd it))
      (enumerate output_tokens).

(** [create_stream] drawn to its end by a consumer that does nothing else
    with the client in between: the items yielded or the exception raised,
    the client afterwards, and the records logged. *)
Definition create_stream (c : Client) (a : CallArgs)
  : Res (list Item) * Client * list LogRecord :=
  let log0 := warn_tool_choice (tool_choice a) in
  if (len (chat_completions c) <=? Z.of_nat (_current_index c)) then
    (Raise Exhausted, c, log0)
  else
    match nth_error (chat_completions c) (_current_index c) with
    | None => (Raise IndexError, c, log0)
    | Some response =>
        let '(_, prompt_token_count, log1) := _tokenize (ArgSequence (messages a)) in
        match response with
        | Text s =>
            let '(output_tokens, output_token_count, log2) := _tokenize (ArgStr s) in
            let c := set_cur_usage c
                       {| prompt_tokens := prompt_token_count;
                          completion_tokens := output_token_count |} in
            let yielded := map Fragment (fragments output_tokens) in
            let result :=
              {| finish_reason := "stop";
                 content := StrContent s;
                 usage := _cur_usage c;
                 cached := _cached_bool_value c |} in
            let c := _update_total_usage c in
            let c := advance c in
            (Ok (yielded ++ [Final result]), c, log0 ++ log1 ++ log2)
        | Prebuilt r =>
            let c := set_cur_usage c
                       {| prompt_tokens := prompt_token_count;
                          completion_tokens := completion_tokens (usage r) |} in
            let c := _update_total_usage c in
            let c := advance c in
            (Ok [Final r], c, log0 ++ log1)
        end
    end.

(** ** The generator of [create_stream], one [__anext__] at a time *)

(** Where the generator is suspended. *)
Inductive Gen :=
| GenStart (a : CallArgs)
| GenLoop (response : str) (output_tokens : list str) (i : nat)
| GenAfterResult
| GenDone.

Inductive Step :=
| Yielded (x : Item) (g : Gen)
| Stopped
| Raised (e : Error).

(** Enter the [for] loop at index [i], or leave it and yield the result
    record, built from the client as it is at that moment. *)
Definition resume_loop (c : Client) (response : str)
  (output_tokens : list str) (i : nat) : Step :=
  match nth_error output_tokens i with
  | Some token =>
      Yielded (Fragment (fragment output_tokens i token))
              (GenLoop response output_tokens (S i))
  | None =>
      Yielded (Final {| finish_reason := "stop";
                        content := StrContent response;
                        usage := _cur_usage c;
                        cached := _cached_bool_value c |})
              GenAfterResult
  end.

Definition anext (c : Client) (g : Gen) : Step * Client * list LogRecord :=
  match g with
  | GenStart a =>
      let log0 := warn_tool_choice (tool_choice a) in
      if (len (chat_completions c) <=? Z.of_nat (_current_index c)) then
        (Raised Exhausted, c, log0)
      else
        match nth_error (chat_completions c) (_current_index c) with
        | None => (Raised IndexError, c, log0)
        | Some response =>
            let '(_, prompt_token_count, log1) :=
              _tokenize (ArgSequence (messages a)) in
            match response with
            | Text s =>
                let '(output_tokens, output_token_count, log2) :=
                  _tokenize (ArgStr s) in
                let c := set_cur_usage c
                           {| prompt_tokens := prompt_token_count;
                              completion_tokens := output_token_count |} in
                (resume_loop c s output_tokens 0, c, log0 ++ log1 ++ log2)
            | Prebuilt r =>
                let c := set_cur_usage c
                           {| prompt_tokens := prompt_token_count;
                              completion_tokens := completion_tokens (usage r) |} in
                (Yielded (Final r) GenAfterResult, c, log0 ++ log1)
            end
        end
  | GenLoop response output_tokens i =>
      (resume_loop c response output_tokens i, c, [])
  | GenAfterResult =>
      let c := _update_total_usage c in
      let c := advance c in
      (Stopped, c, [])
  | GenDone => (Stopped, c, [])
  end.

(** [consumed c g xs r c' log]: pulling from [g] until it ends, with no
    other use of the client in between, yields [xs] and then stops
    ([Ok tt]) or raises. *)
Inductive consumed
  : Client -> Gen -> list Item -> Res unit -> Client -> list LogRecord -> Prop :=
| consumed_stop c g c' log :
    anext c g = (Stopped, c', log) ->
    consumed c g [] (Ok tt) c' log
| consumed_raise c g e c' log :
    anext c g = (Raised e, c', log) ->
    consumed c g [] (Raise e) c' log
| consumed_yield c g x g' c1 log1 xs r c' log2 :
    anext c g = (Yielded x g', c1, log1) ->
    consumed c1 g' xs r c' log2 ->
    consumed c g (x :: xs) r c' (log1 ++ log2).

(** ** Sessions: requests served one after the other *)

Inductive Request :=
| Create (a : CallArgs)
| CreateStream (a : CallArgs).

Inductive Reply :=
| Completion (r : CreateResult)
| Stream (xs : list Item).

Definition serve (c : Client) (rq : Request) : Res Reply * Client :=
  match rq with
  | Create a =>
      match create c a with
      | (Ok r, c', _) => (Ok (Completion r), c')
      | (Raise e, c', _) => (Raise e, c')
      end
  | CreateStream a =>
      match create_stream c a with
      | (Ok xs, c', _) => (Ok (Stream xs), c')
      | (Raise e, c', _) => (Raise e, c')
      end
  end.

(** Each request's outcome together with [actual_usage()] read right after
    it, and the client at the end. *)
Fixpoint session (c : Client) (rqs : list Request)
  : list (Res Reply * RequestUsage) * Client :=
  match rqs with
  | [] => ([], c)
  | rq :: rqs' =>
      let '(out, c1) := serve c rq in
      let '(outs, c') := session c1 rqs' in
      ((out, actual_usage c1) :: outs, c')
  end.

(** The result record a reply carries: the value [create] returned, or the
    last item of a stream. *)
Definition reply_result (rp : Reply) : option CreateResult :=
  match rp with
  | Completion r => Some r
  | Stream xs =>
      match last (map Some xs) None with
      | Some (Final r) => Some r
      | _ => None
      end
  end.

Definition outcome_content (out : Res Reply * RequestUsage) : option Content :=
  match fst out with
  | Ok rp => option_map content (reply_result rp)
  | Raise _ => None
  end.

Definition entry_content (e : Entry) : Content :=
  match e with
  | Text s => StrContent s
  | Prebuilt r => content r
  end.

(** The usage snapshots of the requests that completed. *)
Fixpoint completed_usages (outs : list (Res Reply * RequestUsage))
  : list RequestUsage :=
  match outs with
  | [] => []
  | (Ok _, u) :: outs' => u :: completed_usages outs'
  | (Raise _, _) :: outs' => completed_usages outs'
  end.

(** ** What a served entry leaves behind *)

(** The usage a request records for entry [e]: the prompt count of the
    call's messages, and the entry's word count or stored completion
    count. *)
Definition usage_for (c : Client) (a : CallArgs) (e : Entry) : RequestUsage :=
  {| prompt_tokens := count_tokens c (messages a);
     completion_tokens :=
       match e with
       | Text s => len (split s)
       | Prebuilt r => completion_tokens (usage r)
       end |}.

(** The client once entry [e] has been served, call log apart. *)
Definition served (c : Client) (a : CallArgs) (e : Entry) : Client :=
  advance (_update_total_usage (set_cur_usage c (usage_for c a e))).

(** The result record synthesized for a text entry. *)
Definition text_result (c : Client) (a : CallArgs) (s : str) : CreateResult :=
  {| finish_reason := "stop";
     content := StrContent s;
     usage := usage_for c a (Text s);
     cached := _cached_bool_value c |}.

Definition request_log (a : CallArgs) : list LogRecord :=
  warn_tool_choice (tool_choice a) ++ snd (_tokenize (ArgSequence (messages a))).

(** The string contents of a sequence of messages, in order. *)
Fixpoint string_contents (ms : list LLMMessage) : list str :=
  match ms with
  | [] => []
  | m :: ms' =>
      match message_content m with
      | StrContent s => s :: string_contents ms'
      | OtherContent _ => string_contents ms'
      end
  end.

Definition has_string_content (m : LLMMessage) : bool :=
  match message_content m with
  | StrContent _ => true
  | OtherContent _ => false
  end.

Definition no_space (w : str) : bool :=
  forallb (fun ch => negb (is_space ch)) w.

(** The warnings [_tokenize] logs for a sequence: one per message whose
    content is not a string. *)
Definition content_warnings (ms : list LLMMessage) : list LogRecord :=
  map (fun _ => string_content_warning)
      (filter (fun m => negb (has_string_content m)) ms).

(** Sum of Python integers. *)
Definition sumZ (l : list Z) : Z := fold_right Z.add 0 l.

(** A word: not empty and free of whitespace. *)
Definition is_word (w : str) : bool :=
  match w with
  | [] => false
  | _ :: _ => forallb (fun ch => negb (is_space ch)) w
  end.

(** The items a stream yielded, and how it ended. *)
Definition stream_items (r : Res (list Item)) : list Item :=
  match r with
  | Ok xs => xs
  | Raise _ => []
  end.

Definition stream_end (r : Res (list Item)) : Res unit :=
  match r with
  | Ok _ => Ok tt
  | Raise e => Raise e
  end.

(** The text fragments among the items of a stream, in order. *)
Fixpoint yielded_text (xs : list Item) : list str :=
  match xs with
  | [] => []
  | Fragment s :: xs' => s :: yielded_text xs'
  | Final _ :: xs' => yielded_text xs'
  end.

Definition request_args (rq : Request) : CallArgs :=
  match rq with
  | Create a => a
  | CreateStream a => a
  end.

(** The client once request [rq] has been served entry [e]. *)
Definition after (c : Client) (rq : Request) (e : Entry) : Client :=
  match rq with
  | Create a => log_call (served c a e) (call_record a)
  | CreateStream a => served c a e
  end.

(** The clients that exist: built by [__init__], then used through the
    methods, streams included, whether drawn to their end or not. *)
Inductive reachable : Client -> Prop :=
| reach_init entries info c :
    __init__ entries info = Ok c -> reachable c
| reach_serve c rq :
    reachable c -> reachable (snd (serve c rq))
| reach_anext c g :
    reachable c -> reachable (snd (fst (anext c g)))
| reach_reset c :
    reachable c -> reachable (reset c)
| reach_set_cached c value :
    reachable c -> reachable (set_cached_bool_value c value).

(** ** Sample values *)

Definition user (s : string) : LLMMessage :=
  {| message_content := StrContent (py s) |}.

Definition attachment : LLMMessage :=
  {| message_content := OtherContent [] |}.

Definition ask (ms : list LLMMessage) : CallArgs :=
  {| messages := ms;
     tools := [];
     tool_choice := Auto;
     json_output_arg := None;
     extra_create_args := [];
     cancellation_token := None |}.

Definition hello_bye : Client :=
  new_client [Text (py "Hello there"); Text (py "Bye")] default_model_info.

Definition canned (p k : Z) : CreateResult :=
  {| finish_reason := "stop";
     content := StrContent (py "canned answer");
     usage := {| prompt_tokens := p; completion_tokens := k |};
     cached := false |}.

(** ** Further vocabulary for the properties *)

(** A text without any word: empty, or whitespace only. *)
Definition blank (s : str) : bool := forallb is_space s.

(** The arguments of the [create] requests of a session, in order. *)
Fixpoint create_args (rqs : list Request) : list CallArgs :=
  match rqs with
  | [] => []
  | Create a :: rqs' => a :: create_args rqs'
  | CreateStream _ :: rqs' => create_args rqs'
  end.

(** The completion count a request records for an entry. *)
Definition entry_completion (e : Entry) : Z :=
  match e with
  | Text s => len (split s)
  | Prebuilt r => completion_tokens (usage r)
  end.

(** The entries still to be served. *)
Definition pending (c : Client) : list Entry :=
  skipn (_current_index c) (chat_completions c).

(** * Properties *)

(** ** Splitting and joining *)

Example split_hello : split (py "Hello there") = [py "Hello"; py "there"].
Proof. reflexivity. Qed.

Example split_blank : split (py "  a   b ") = [py "a"; py "b"].
Proof. reflexivity. Qed.

Lemma is_word_no_space w : is_word w = true -> no_space w = true.
Proof. destruct w; [discriminate | exact (fun H => H)]. Qed.

Lemma is_word_nonempty w : is_word w = true -> w <> [].
Proof. destruct w; [discriminate | discriminate]. Qed.

Lemma no_space_app u v :
  no_space (u ++ v) = no_space u && no_space v.
Proof. apply forallb_app. Qed.

(** Code points that are not whitespace only extend the current word. *)
Lemma split_from_word word u s :
  no_space u = true ->
  split_from word (u ++ s) = split_from (word ++ u) s.
Proof.
  revert word. induction u as [|ch u IH]; intros word Hu.
  - now rewrite app_nil_r.
  - simpl in Hu. apply andb_true_iff in Hu as [Hch Hu].
    apply negb_true_iff in Hch. simpl. rewrite Hch.
    rewrite IH by assumption. now rewrite <- app_assoc.
Qed.

Lemma split_from_end word : word <> [] -> split_from word [] = [word].
Proof. destruct word; [congruence | reflexivity]. Qed.

Lemma split_from_space word s :
  word <> [] -> split_from word (SPACE :: s) = word :: split_from [] s.
Proof. destruct word; [congruence | reflexivity]. Qed.

(** Splitting undoes joining on words. *)
Lemma split_join ws :
  Forall (fun w => is_word w = true) ws -> split (join ws) = ws.
Proof.
  unfold split. induction 1 as [|w ws Hw Hws IH]; [reflexivity|].
  pose proof (is_word_no_space w Hw) as Hn.
  pose proof (is_word_nonempty w Hw) as Hne.
  destruct ws as [|w' ws'].
  - simpl. rewrite <- (app_nil_r w) at 1.
    rewrite split_from_word by assumption. now apply split_from_end.
  - change (join (w :: w' :: ws')) with (w ++ SPACE :: join (w' :: ws')).
    rewrite split_from_word by assumption. simpl app.
    rewrite split_from_space by assumption. now rewrite IH.
Qed.

(** Every piece [split] returns is a word. *)
Lemma split_from_words s : forall word,
  no_space word = true ->
  Forall (fun w => is_word w = true) (split_from word s).
Proof.
  induction s as [|ch s IH]; intros word Hw.
  - destruct word; simpl; [constructor|]. constructor; [exact Hw | constructor].
  - simpl. destruct (is_space ch) eqn:Hch.
    + destruct word.
      * apply IH. reflexivity.
      * constructor; [exact Hw | apply IH; reflexivity].
    + apply IH. rewrite no_space_app, Hw. simpl. now rewrite Hch.
Qed.

Lemma split_words s : Forall (fun w => is_word w = true) (split s).
Proof. apply split_from_words. reflexivity. Qed.

(** The fragments of the streaming loop, put end to end, are the tokens
    joined by single spaces. *)
Lemma fragments_from_concat (n : Z) (l : list str) : forall i,
  Z.of_nat i + len l = n ->
  concat (map (fun it => if Z.of_nat (fst it) <? n - 1
                         then snd it ++ [SPACE] else snd it)
              (enumerate_from i l)) = join l.
Proof.
  unfold len. induction l as [|x l IH]; intros i Hn; [reflexivity|].
  destruct l as [|y l'].
  - simpl in *. replace (Z.of_nat i <? n - 1) with false.
    + now rewrite app_nil_r.
    + symmetry. apply Z.ltb_ge. lia.
  - change (join (x :: y :: l')) with (x ++ SPACE :: join (y :: l')).
    rewrite <- (IH (S i)) by (simpl length in *; lia).
    cbn [enumerate_from map concat fst snd].
    replace (Z.of_nat i <? n - 1) with true.
    + now rewrite <- app_assoc.
    + symmetry. apply Z.ltb_lt. simpl length in Hn. lia.
Qed.

Lemma fragments_concat (output_tokens : list str) :
  concat (fragments output_tokens) = join output_tokens.
Proof.
  unfold fragments, fragment, enumerate.
  apply fragments_from_concat. simpl. reflexivity.
Qed.

Lemma fragments_length (output_tokens : list str) :
  length (fragments output_tokens) = length output_tokens.
Proof.
  unfold fragments, enumerate. rewrite length_map.
  generalize 0%nat. induction output_tokens as [|x l IH]; intro i; simpl;
    [reflexivity | now rewrite IH].
Qed.

Lemma nth_error_enumerate_from {A : Type} (l : list A) : forall i k,
  nth_error (enumerate_from i l) k =
  option_map (fun x => ((i + k)%nat, x)) (nth_error l k).
Proof.
  induction l as [|x l IH]; intros i [|k]; simpl; try reflexivity.
  - now rewrite Nat.add_0_r.
  - rewrite IH. now rewrite Nat.add_succ_r.
Qed.

(** Fragment [k] is token [k], followed by one space unless it is the
    last. *)
Lemma nth_error_fragments (output_tokens : list str) k :
  nth_error (fragments output_tokens) k =
  option_map (fragment output_tokens k) (nth_error output_tokens k).
Proof.
  unfold fragments, enumerate. rewrite nth_error_map, nth_error_enumerate_from.
  now destruct (nth_error output_tokens k).
Qed.

(** ** Tokenization *)

Lemma len_app {A : Type} (l l' : list A) : len (l ++ l') = len l + len l'.
Proof. unfold len. rewrite length_app. lia. Qed.

Lemma len_flat_map {A B : Type} (f : A -> list B) (l : list A) :
  len (flat_map f l) = sumZ (map (fun x => len (f x)) l).
Proof.
  induction l as [|x l IH]; [reflexivity|].
  simpl. now rewrite len_app, IH.
Qed.

(** The loop of [_tokenize] over a sequence, from any intermediate
    state. *)
Lemma tokenize_sequence_from ms : forall all_tokens total_tokens log,
  fold_left tokenize_message ms (all_tokens, total_tokens, log) =
  (all_tokens ++ flat_map split (string_contents ms),
   total_tokens + len (flat_map split (string_contents ms)),
   log ++ content_warnings ms).
Proof.
  unfold content_warnings, has_string_content.
  induction ms as [|m ms IH]; intros all_tokens total_tokens log.
  - simpl. now rewrite !app_nil_r, Z.add_0_r.
  - cbn [fold_left string_contents filter].
    unfold tokenize_message at 2.
    destruct (message_content m) as [s|parts]; rewrite IH;
      cbn [negb map flat_map].
    + now rewrite len_app, <- app_assoc, Z.add_assoc.
    + now rewrite <- app_assoc.
Qed.

Lemma tokenize_sequence ms :
  _tokenize (ArgSequence ms) =
  (flat_map split (string_contents ms),
   len (flat_map split (string_contents ms)),
   content_warnings ms).
Proof. unfold _tokenize. now rewrite tokenize_sequence_from. Qed.

Lemma tokenize_str s : _tokenize (ArgStr s) = (split s, len (split s), []).
Proof. reflexivity. Qed.

Lemma count_tokens_sequence c ms :
  count_tokens c ms = len (flat_map split (string_contents ms)).
Proof. unfold count_tokens. now rewrite tokenize_sequence. Qed.

Lemma request_log_eq a :
  request_log a = warn_tool_choice (tool_choice a) ++ content_warnings (messages a).
Proof. unfold request_log. now rewrite tokenize_sequence. Qed.

(** ** One request *)

Lemma cursor_in_range {A : Type} (l : list A) i e :
  nth_error l i = Some e -> (len l <=? Z.of_nat i) = false.
Proof.
  intro H. apply Z.leb_gt. unfold len.
  assert (i < length l)%nat by (apply nth_error_Some; congruence). lia.
Qed.

Lemma cursor_at_end {A : Type} (l : list A) i :
  (length l <= i)%nat -> (len l <=? Z.of_nat i) = true.
Proof. intro H. apply Z.leb_le. unfold len. lia. Qed.

Lemma create_at_text c a s :
  nth_error (chat_completions c) (_current_index c) = Some (Text s) ->
  create c a =
  (Ok (text_result c a s),
   log_call (served c a (Text s)) (call_record a),
   request_log a).
Proof.
  intro H. unfold create.
  rewrite (cursor_in_range _ _ _ H), H, tokenize_sequence, tokenize_str.
  unfold text_result, served, usage_for.
  rewrite count_tokens_sequence, request_log_eq. cbn [_cur_usage set_cur_usage].
  now rewrite !app_nil_r.
Qed.

Lemma create_at_prebuilt c a r :
  nth_error (chat_completions c) (_current_index c) = Some (Prebuilt r) ->
  create c a =
  (Ok r,
   log_call (served c a (Prebuilt r)) (call_record a),
   request_log a).
Proof.
  intro H. unfold create.
  rewrite (cursor_in_range _ _ _ H), H, tokenize_sequence.
  unfold served, usage_for.
  rewrite count_tokens_sequence, request_log_eq.
  now rewrite !app_nil_r.
Qed.

Lemma create_at_end c a :
  (length (chat_completions c) <= _current_index c)%nat ->
  create c a = (Raise Exhausted, c, warn_tool_choice (tool_choice a)).
Proof. intro H. unfold create. now rewrite (cursor_at_end _ _ H). Qed.

Lemma create_stream_at_text c a s :
  nth_error (chat_completions c) (_current_index c) = Some (Text s) ->
  create_stream c a =
  (Ok (map Fragment (fragments (split s)) ++ [Final (text_result c a s)]),
   served c a (Text s),
   request_log a).
Proof.
  intro H. unfold create_stream.
  rewrite (cursor_in_range _ _ _ H), H, tokenize_sequence, tokenize_str.
  unfold text_result, served, usage_for.
  rewrite count_tokens_sequence, request_log_eq. cbn [_cur_usage set_cur_usage].
  now rewrite !app_nil_r.
Qed.

Lemma create_stream_at_prebuilt c a r :
  nth_error (chat_completions c) (_current_index c) = Some (Prebuilt r) ->
  create_stream c a =
  (Ok [Final r], served c a (Prebuilt r), request_log a).
Proof.
  intro H. unfold create_stream.
  rewrite (cursor_in_range _ _ _ H), H, tokenize_sequence.
  unfold served, usage_for.
  now rewrite count_tokens_sequence, request_log_eq.
Qed.

Lemma create_stream_at_end c a :
  (length (chat_completions c) <= _current_index c)%nat ->
  create_stream c a = (Raise Exhausted, c, warn_tool_choice (tool_choice a)).
Proof. intro H. unfold create_stream. now rewrite (cursor_at_end _ _ H). Qed.

Lemma cursor_cases c :
  (exists e, nth_error (chat_completions c) (_current_index c) = Some e) \/
  (length (chat_completions c) <= _current_index c)%nat.
Proof.
  destruct (nth_error (chat_completions c) (_current_index c)) as [e|] eqn:H.
  - left. now exists e.
  - right. now apply nth_error_None.
Qed.

(** ** The generator agrees with [create_stream] *)

Lemma skipn_nth_error {A : Type} (l : list A) : forall i x,
  nth_error l i = Some x -> skipn i l = x :: skipn (S i) l.
Proof.
  induction l as [|y l IH]; intros [|i] x H; simpl in *; try discriminate.
  - now injection H as ->.
  - now apply IH.
Qed.

Lemma consumed_loop c s output_tokens : forall n i,
  (i + n = length output_tokens)%nat ->
  consumed c (GenLoop s output_tokens i)
    (map Fragment (skipn i (fragments output_tokens))
     ++ [Final {| finish_reason := "stop";
                  content := StrContent s;
                  usage := _cur_usage c;
                  cached := _cached_bool_value c |}])
    (Ok tt) (advance (_update_total_usage c)) [].
Proof.
  induction n as [|n IH]; intros i Hi.
  - assert (Hnone : nth_error output_tokens i = None)
      by (apply nth_error_None; lia).
    rewrite skipn_all2 by (rewrite fragments_length; lia).
    change (@nil LogRecord) with (@nil LogRecord ++ []).
    eapply consumed_yield.
    + simpl. unfold resume_loop. rewrite Hnone. reflexivity.
    + apply consumed_stop. reflexivity.
  - destruct (nth_error output_tokens i) as [token|] eqn:Htok.
    2: { apply nth_error_None in Htok. lia. }
    rewrite (skipn_nth_error _ i (fragment output_tokens i token))
      by (rewrite nth_error_fragments, Htok; reflexivity).
    change (@nil LogRecord) with (@nil LogRecord ++ []).
    eapply consumed_yield.
    + simpl. unfold resume_loop. rewrite Htok. reflexivity.
    + apply IH. lia.
Qed.

(** A generator that enters the loop at index [i] runs it to its end. *)
Lemma consumed_resume c g c1 log s output_tokens i :
  anext c g = (resume_loop c1 s output_tokens i, c1, log) ->
  consumed c g
    (map Fragment (skipn i (fragments output_tokens))
     ++ [Final {| finish_reason := "stop";
                  content := StrContent s;
                  usage := _cur_usage c1;
                  cached := _cached_bool_value c1 |}])
    (Ok tt) (advance (_update_total_usage c1)) log.
Proof.
  intro Hstep. rewrite <- (app_nil_r log).
  unfold resume_loop in Hstep.
  destruct (nth_error output_tokens i) as [token|] eqn:Htok.
  - assert (i < length output_tokens)%nat
      by (apply nth_error_Some; congruence).
    rewrite (skipn_nth_error _ i (fragment output_tokens i token))
      by (rewrite nth_error_fragments, Htok; reflexivity).
    eapply consumed_yield; [exact Hstep|].
    apply (consumed_loop _ _ _ (length output_tokens - S i)). lia.
  - apply nth_error_None in Htok.
    rewrite skipn_all2 by (rewrite fragments_length; lia).
    eapply consumed_yield; [exact Hstep|].
    apply consumed_stop. reflexivity.
Qed.

(** Pulling from the generator until it ends gives what [create_stream]
    says, and leaves the client it says. *)
Lemma create_stream_consumed c a :
  consumed c (GenStart a)
    (stream_items (fst (fst (create_stream c a))))
    (stream_end (fst (fst (create_stream c a))))
    (snd (fst (create_stream c a)))
    (snd (create_stream c a)).
Proof.
  destruct (cursor_cases c) as [[[s|r] H]|H].
  - rewrite (create_stream_at_text _ _ _ H). cbn [fst snd stream_items stream_end].
    assert (Hstep : anext c (GenStart a) =
              (resume_loop (set_cur_usage c (usage_for c a (Text s))) s (split s) 0,
               set_cur_usage c (usage_for c a (Text s)), request_log a)).
    { unfold anext. rewrite (cursor_in_range _ _ _ H), H, tokenize_sequence, tokenize_str.
      unfold usage_for. rewrite count_tokens_sequence, request_log_eq.
      now rewrite !app_nil_r. }
    change (fragments (split s)) with (skipn 0 (fragments (split s))).
    apply (consumed_resume _ _ _ _ _ _ _ Hstep).
  - rewrite (create_stream_at_prebuilt _ _ _ H). cbn [fst snd stream_items stream_end].
    rewrite <- (app_nil_r (request_log a)).
    eapply consumed_yield.
    + unfold anext. rewrite (cursor_in_range _ _ _ H), H, tokenize_sequence.
      rewrite request_log_eq. reflexivity.
    + apply consumed_stop. simpl. unfold served, usage_for.
      now rewrite count_tokens_sequence.
  - rewrite (create_stream_at_end _ _ H). cbn [fst snd stream_items stream_end].
    apply consumed_raise. unfold anext. now rewrite (cursor_at_end _ _ H).
Qed.

(** A generator has one run. *)
Lemma consumed_functional c g xs r c' log :
  consumed c g xs r c' log ->
  forall xs2 r2 c2 log2,
    consumed c g xs2 r2 c2 log2 ->
    xs2 = xs /\ r2 = r /\ c2 = c' /\ log2 = log.
Proof.
  induction 1 as [c g c' log H|c g e c' log H|c g x g' c1 log1 xs r c' log2 H Hrest IH];
    intros xs2 r2 c2 log2' H2; inversion H2; subst;
    match goal with
    | Ha : anext ?c ?g = _, Hb : anext ?c ?g = _ |- _ =>
        rewrite Ha in Hb; try discriminate; injection Hb as; subst
    end; auto.
  match goal with
  | Hc : consumed _ _ _ _ _ _ |- _ => destruct (IH _ _ _ _ Hc) as (-> & -> & -> & ->)
  end.
  auto.
Qed.

(** ** Sessions *)

Lemma after_fields c rq e :
  chat_completions (after c rq e) = chat_completions c /\
  _current_index (after c rq e) = S (_current_index c) /\
  _model_info (after c rq e) = _model_info c /\
  actual_usage (after c rq e) = usage_for c (request_args rq) e /\
  total_usage (after c rq e) =
    usage_add (total_usage c) (usage_for c (request_args rq) e).
Proof. destruct rq; repeat split. Qed.

Lemma last_final (xs : list Item) r :
  last (map Some (xs ++ [Final r])) None = Some (Final r).
Proof. rewrite map_app. apply last_last. Qed.

(** A request with an entry under the cursor is served that entry. *)
Lemma serve_in_range c rq e :
  nth_error (chat_completions c) (_current_index c) = Some e ->
  exists rp,
    serve c rq = (Ok rp, after c rq e) /\
    option_map content (reply_result rp) = Some (entry_content e).
Proof.
  intro H. destruct rq as [a|a], e as [s|r]; unfold serve.
  - rewrite (create_at_text _ _ _ H). eexists. split; reflexivity.
  - rewrite (create_at_prebuilt _ _ _ H). eexists. split; reflexivity.
  - rewrite (create_stream_at_text _ _ _ H). eexists. split; [reflexivity|].
    unfold reply_result. now rewrite last_final.
  - rewrite (create_stream_at_prebuilt _ _ _ H). eexists. split; reflexivity.
Qed.

(** A request with the cursor at the end raises and changes nothing. *)
Lemma serve_at_end c rq :
  (length (chat_completions c) <= _current_index c)%nat ->
  serve c rq = (Raise Exhausted, c).
Proof.
  intro H. destruct rq as [a|a]; unfold serve.
  - now rewrite (create_at_end _ _ H).
  - now rewrite (create_stream_at_end _ _ H).
Qed.

Lemma session_cons c rq rqs :
  session c (rq :: rqs) =
  ((fst (serve c rq), actual_usage (snd (serve c rq)))
     :: fst (session (snd (serve c rq)) rqs),
   snd (session (snd (serve c rq)) rqs)).
Proof.
  cbn [session]. destruct (serve c rq) as [out c1]. cbn [fst snd].
  now destruct (session c1 rqs) as [outs c'].
Qed.

(** The response list is only read, and the cursor stays within it. *)
Lemma session_cursor_bound rqs : forall c,
  (_current_index c <= length (chat_completions c))%nat ->
  chat_completions (snd (session c rqs)) = chat_completions c /\
  (_current_index (snd (session c rqs)) <= length (chat_completions c))%nat.
Proof.
  induction rqs as [|rq rqs IH]; intros c Hc; [now split|].
  rewrite session_cons. cbn [snd].
  destruct (cursor_cases c) as [[e H]|H].
  - destruct (serve_in_range c rq e H) as (rp & -> & _). cbn [snd].
    destruct (after_fields c rq e) as (He & Hi & _).
    assert (_current_index c < length (chat_completions c))%nat
      by (apply nth_error_Some; congruence).
    destruct (IH (after c rq e)) as [IH1 IH2]; [rewrite He, Hi; lia|].
    rewrite IH1, <- He. now split.
  - rewrite (serve_at_end _ _ H). cbn [snd]. now apply IH.
Qed.

(** While entries remain, every request is served the next one. *)
Lemma session_replay rqs : forall c,
  (_current_index c + length rqs <= length (chat_completions c))%nat ->
  map outcome_content (fst (session c rqs)) =
    map (fun e => Some (entry_content e))
        (firstn (length rqs) (skipn (_current_index c) (chat_completions c))) /\
  _current_index (snd (session c rqs)) = (_current_index c + length rqs)%nat /\
  chat_completions (snd (session c rqs)) = chat_completions c.
Proof.
  induction rqs as [|rq rqs IH]; intros c Hc.
  - simpl. now rewrite Nat.add_0_r.
  - simpl length in *.
    destruct (nth_error (chat_completions c) (_current_index c)) as [e|] eqn:H.
    2: { apply nth_error_None in H. lia. }
    rewrite session_cons.
    destruct (serve_in_range c rq e H) as (rp & Hs & Hcontent). rewrite Hs.
    cbn [fst snd map].
    destruct (after_fields c rq e) as (He & Hi & _).
    destruct (IH (after c rq e)) as (IH1 & IH2 & IH3); [rewrite He, Hi; lia|].
    rewrite IH1, IH2, IH3, He, Hi.
    rewrite (skipn_nth_error _ _ _ H). cbn [firstn map].
    unfold outcome_content at 1. cbn [fst]. rewrite Hcontent.
    repeat split. lia.
Qed.

Lemma usage_add_zero_l u : usage_add usage_zero u = u.
Proof. now destruct u. Qed.

Lemma usage_add_zero_r u : usage_add u usage_zero = u.
Proof. destruct u. unfold usage_add. simpl. now rewrite !Z.add_0_r. Qed.

Lemma usage_add_assoc u v w :
  usage_add (usage_add u v) w = usage_add u (usage_add v w).
Proof. unfold usage_add. simpl. now rewrite !Z.add_assoc. Qed.

(** The total grows by the snapshot of each request that completes. *)
Lemma session_total_usage rqs : forall c,
  total_usage (snd (session c rqs)) =
  usage_add (total_usage c) (usage_sum (completed_usages (fst (session c rqs)))).
Proof.
  induction rqs as [|rq rqs IH]; intro c.
  - simpl. now rewrite usage_add_zero_r.
  - rewrite session_cons. cbn [fst snd].
    destruct (cursor_cases c) as [[e H]|H].
    + destruct (serve_in_range c rq e H) as (rp & -> & _). cbn [fst snd].
      destruct (after_fields c rq e) as (_ & _ & _ & Hcur & Htot).
      rewrite IH, Htot, Hcur. cbn [completed_usages usage_sum fold_right].
      apply usage_add_assoc.
    + rewrite (serve_at_end _ _ H). cbn [fst snd completed_usages]. apply IH.
Qed.

(** Every client that exists carries a descriptor that passes
    validation, as soon as the default one does. *)
Lemma reachable_model_info c :
  (exists u, validate_model_info default_model_info = Ok u) ->
  reachable c ->
  exists u, validate_model_info (_model_info c) = Ok u.
Proof.
  intros Hdefault. induction 1 as [entries [info|] c H|c rq _ IH|c g _ IH| |];
    try assumption.
  - unfold __init__ in H. destruct (validate_model_info info) as [u|e] eqn:Hv;
      [|discriminate].
    injection H as <-. now exists u.
  - injection H as <-. exact Hdefault.
  - destruct (cursor_cases c) as [[e H]|H].
    + destruct (serve_in_range c rq e H) as (rp & -> & _). now destruct rq.
    + now rewrite (serve_at_end _ _ H).
  - destruct g as [a|s toks i| |]; try exact IH.
    unfold anext.
    destruct (len (chat_completions c) <=? Z.of_nat (_current_index c));
      [exact IH|].
    destruct (nth_error (chat_completions c) (_current_index c)) as [[s|r]|];
      [| |exact IH].
    + rewrite tokenize_sequence, tokenize_str. exact IH.
    + rewrite tokenize_sequence. exact IH.
Qed.

Lemma init_fields entries info c :
  __init__ entries info = Ok c ->
  chat_completions c = entries /\ _current_index c = 0%nat.
Proof.
  unfold __init__. destruct info as [info|].
  - destruct (validate_model_info info); [|discriminate].
    intro H. injection H as <-. now split.
  - intro H. injection H as <-. now split.
Qed.

Lemma contents_all_ok (outs : list (Res Reply * RequestUsage)) : forall l,
  map outcome_content outs = map Some l ->
  Forall (fun out => exists rp, fst out = Ok rp) outs.
Proof.
  induction outs as [|[[rp|e] u] outs IH]; intros [|x l] H;
    try discriminate; constructor.
  - now exists rp.
  - injection H as _ H. now apply (IH l).
Qed.

(** * The claims *)

(** C1 (amended). When the entry under the cursor is a pre-built result
    record, [create] returns that record as it is: its usage, prompt count
    included, is the canned one. The prompt count recomputed from the
    call's messages and the completion count inherited from the record
    make up the client's current usage, which is added to the total. *)
Theorem create_prebuilt_returns_canned_record c a r :
  nth_error (chat_completions c) (_current_index c) = Some (Prebuilt r) ->
  exists c' log,
    create c a = (Ok r, c', log) /\
    actual_usage c' =
      {| prompt_tokens := count_tokens c (messages a);
         completion_tokens := completion_tokens (usage r) |} /\
    total_usage c' = usage_add (total_usage c) (actual_usage c').
Proof.
  intro H. rewrite (create_at_prebuilt _ _ _ H).
  do 2 eexists. repeat split.
Qed.

(** C2 (amended). For a text entry, [create_stream] yields one fragment
    per whitespace-split piece, each followed by one space except the
    last, then exactly one result record whose content is the text. The
    fragments put end to end are the pieces joined by single spaces; that
    is the original text exactly when the text is made of words separated
    by single spaces. *)
Theorem create_stream_text_fragments c a s :
  nth_error (chat_completions c) (_current_index c) = Some (Text s) ->
  exists r c' log,
    create_stream c a = (Ok (map Fragment (fragments (split s)) ++ [Final r]), c', log) /\
    length (fragments (split s)) = length (split s) /\
    (forall k token,
       nth_error (split s) k = Some token ->
       nth_error (fragments (split s)) k =
       Some (if (S k <? length (split s))%nat then token ++ [SPACE] else token)) /\
    yielded_text (map Fragment (fragments (split s)) ++ [Final r]) =
      fragments (split s) /\
    concat (fragments (split s)) = join (split s) /\
    (concat (fragments (split s)) = s <->
     exists ws, Forall (fun w => is_word w = true) ws /\ s = join ws) /\
    finish_reason r = "stop"%string /\
    content r = StrContent s /\
    usage r = actual_usage c'.
Proof.
  intro H. rewrite (create_stream_at_text _ _ _ H).
  exists (text_result c a s). do 2 eexists.
  split; [reflexivity|]. split; [apply fragments_length|].
  split.
  { intros k token Hk. rewrite nth_error_fragments, Hk. cbn [option_map].
    unfold fragment, len. f_equal.
    destruct (S k <? length (split s))%nat eqn:E.
    - apply Nat.ltb_lt in E.
      replace (Z.of_nat k <? Z.of_nat (length (split s)) - 1) with true;
        [reflexivity|]. symmetry. apply Z.ltb_lt. lia.
    - apply Nat.ltb_ge in E.
      replace (Z.of_nat k <? Z.of_nat (length (split s)) - 1) with false;
        [reflexivity|]. symmetry. apply Z.ltb_ge. lia. }
  split.
  { induction (fragments (split s)) as [|x l IH]; [reflexivity|].
    simpl. now rewrite IH. }
  split; [apply fragments_concat|].
  split; [|repeat split].
  rewrite fragments_concat. split.
  - intro E. exists (split s). split; [apply split_words | now symmetry].
  - intros (ws & Hws & ->). now rewrite split_join.
Qed.

(** C3 (amended). When requests are made one after the other, every
    stream being drawn to its end before the next request starts, a
    client built over N entries serves each of the first N requests,
    whichever way they are made; the request after them raises Exhausted
    and changes nothing; the cursor never goes past N; and once [reset]
    is called the next N requests are served the same contents again. *)
Theorem replay_serves_each_entry_once entries info c0 rqs1 rqs2 extra :
  __init__ entries info = Ok c0 ->
  length rqs1 = length entries ->
  length rqs2 = length entries ->
  let pass1 := session c0 rqs1 in
  let pass2 := session (reset (snd pass1)) rqs2 in
  Forall (fun out => exists rp, fst out = Ok rp) (fst pass1) /\
  map outcome_content (fst pass1) = map (fun e => Some (entry_content e)) entries /\
  serve (snd pass1) extra = (Raise Exhausted, snd pass1) /\
  (forall rqs, (_current_index (snd (session c0 rqs)) <= length entries)%nat) /\
  Forall (fun out => exists rp, fst out = Ok rp) (fst pass2) /\
  map outcome_content (fst pass2) = map outcome_content (fst pass1) /\
  serve (snd pass2) extra = (Raise Exhausted, snd pass2).
Proof.
  intros Hinit H1 H2 pass1 pass2.
  destruct (init_fields _ _ _ Hinit) as [He Hi].
  destruct (session_replay rqs1 c0) as (P1 & P2 & P3);
    [rewrite He, Hi; lia|].
  rewrite He, Hi, H1 in P1. cbn [skipn] in P1. rewrite firstn_all in P1.
  rewrite Hi, H1 in P2. rewrite He in P3.
  destruct (session_replay rqs2 (reset (snd pass1))) as (Q1 & Q2 & Q3);
    [cbn [reset chat_completions _current_index]; subst pass1; rewrite P3; lia|].
  cbn [reset chat_completions _current_index] in Q1, Q2, Q3.
  fold pass1 in P1, P2, P3. fold pass2 in Q1, Q2, Q3.
  rewrite P3, H2 in Q1. cbn [skipn] in Q1. rewrite firstn_all in Q1.
  rewrite P3 in Q3.
  assert (Hmap : forall l : list Entry,
            map (fun e => Some (entry_content e)) l = map Some (map entry_content l))
    by (intro l; now rewrite map_map).
  repeat split.
  - apply (contents_all_ok _ (map entry_content entries)). now rewrite <- Hmap.
  - exact P1.
  - apply serve_at_end. rewrite P2, P3. apply Nat.le_refl.
  - intro rqs. rewrite <- He. apply session_cursor_bound. rewrite Hi. lia.
  - apply (contents_all_ok _ (map entry_content entries)). now rewrite <- Hmap.
  - now rewrite Q1, P1.
  - apply serve_at_end. rewrite Q2, Q3, H2. apply Nat.le_refl.
Qed.

(** C4. After any sequence of requests since the last [reset] (or since
    construction), [total_usage()] is the element-wise sum of the
    [actual_usage()] values read right after each request that completed,
    [create] or a stream drawn to its end. *)
Theorem total_usage_is_sum_of_snapshots c rqs :
  total_usage (snd (session (reset c) rqs)) =
    usage_sum (completed_usages (fst (session (reset c) rqs))) /\
  (forall entries info,
     total_usage (snd (session (new_client entries info) rqs)) =
       usage_sum (completed_usages (fst (session (new_client entries info) rqs)))) /\
  total_usage (snd (session c rqs)) =
    usage_add (total_usage c) (usage_sum (completed_usages (fst (session c rqs)))).
Proof.
  repeat split.
  - rewrite session_total_usage. apply usage_add_zero_l.
  - intros entries info. rewrite session_total_usage. apply usage_add_zero_l.
  - apply session_total_usage.
Qed.

(** C5. Whatever has been done with a client, exporting its configuration
    and building a client from it gives the same response list and the
    same capability descriptor, with the cursor at 0, both usage counters
    at zero and an empty call log. The descriptor is validated again on
    the way; the default descriptor is taken to pass validation. *)
Theorem config_round_trip c :
  (exists u, validate_model_info default_model_info = Ok u) ->
  reachable c ->
  exists c',
    _from_config (_to_config c) = Ok c' /\
    chat_completions c' = chat_completions c /\
    model_info c' = model_info c /\
    _current_index c' = 0%nat /\
    actual_usage c' = usage_zero /\
    total_usage c' = usage_zero /\
    create_calls c' = [].
Proof.
  intros Hdefault Hc.
  destruct (reachable_model_info c Hdefault Hc) as [u Hu].
  exists (new_client (chat_completions c) (_model_info c)).
  unfold _from_config, _to_config, __init__. cbn [config_chat_completions config_model_info].
  rewrite Hu. repeat split.
Qed.

(** C6. When the entry under the cursor is text, [create] returns a
    result record with finish reason "stop", the text as content, as many
    completion tokens as the text has whitespace-split pieces, the token
    count of the call's messages as prompt tokens, and the current cached
    flag. With responses "Hello there" and "Bye", the first call returns
    "Hello there" with 2 completion tokens, the second "Bye" with 1, and
    the third raises Exhausted. *)
Theorem create_text_entry :
  (forall c a s,
     nth_error (chat_completions c) (_current_index c) = Some (Text s) ->
     exists c' log,
       create c a =
       (Ok {| finish_reason := "stop";
              content := StrContent s;
              usage := {| prompt_tokens := count_tokens c (messages a);
                          completion_tokens := len (split s) |};
              cached := _cached_bool_value c |}, c', log)) /\
  (forall a1 a2 a3,
     exists r1 c1 log1 r2 c2 log2 log3,
       create hello_bye a1 = (Ok r1, c1, log1) /\
       content r1 = StrContent (py "Hello there") /\
       completion_tokens (usage r1) = 2 /\
       create c1 a2 = (Ok r2, c2, log2) /\
       content r2 = StrContent (py "Bye") /\
       completion_tokens (usage r2) = 1 /\
       create c2 a3 = (Raise Exhausted, c2, log3)).
Proof.
  split.
  - intros c a s H. rewrite (create_at_text _ _ _ H).
    do 2 eexists. reflexivity.
  - intros a1 a2 a3.
    pose (c1 := log_call (served hello_bye a1 (Text (py "Hello there")))
                         (call_record a1)).
    pose (c2 := log_call (served c1 a2 (Text (py "Bye"))) (call_record a2)).
    exists (text_result hello_bye a1 (py "Hello there")), c1, (request_log a1).
    exists (text_result c1 a2 (py "Bye")), c2, (request_log a2).
    exists (warn_tool_choice (tool_choice a3)).
    split; [now apply create_at_text|].
    do 2 (split; [reflexivity|]).
    split; [now apply create_at_text|].
    do 2 (split; [reflexivity|]).
    apply create_at_end. apply Nat.le_refl.
Qed.

(** C7. [reset] puts the current and the total usage at zero and the
    cursor at 0, and leaves the call log and the response list as they
    were; [total_usage()] then reads 0 and 0, and the next [create] serves
    the entry at index 0 again. *)
Theorem reset_rewinds c :
  actual_usage (reset c) = usage_zero /\
  total_usage (reset c) = usage_zero /\
  _current_index (reset c) = 0%nat /\
  create_calls (reset c) = create_calls c /\
  chat_completions (reset c) = chat_completions c /\
  _cached_bool_value (reset c) = _cached_bool_value c /\
  model_info (reset c) = model_info c /\
  (forall a e,
     nth_error (chat_completions c) 0 = Some e ->
     exists r c' log,
       create (reset c) a = (Ok r, c', log) /\
       content r = entry_content e /\
       r = match e with
           | Text s => text_result (reset c) a s
           | Prebuilt r0 => r0
           end).
Proof.
  repeat split.
  intros a [s|r0] H.
  - rewrite (create_at_text (reset c) a s H). do 3 eexists. repeat split.
  - rewrite (create_at_prebuilt (reset c) a r0 H). do 3 eexists. repeat split.
Qed.


(** C9. Tokenizing a message whose content is not a string does not
    fail: it yields no token, counts zero and logs one warning. Over a
    sequence of messages the tokens and the count are those of the
    string contents alone, with one warning per other message, so a
    message without string content adds nothing to the count. *)
Theorem tokenize_non_string_content :
  (forall m parts,
     message_content m = OtherContent parts ->
     _tokenize (ArgMessage m) = ([], 0, [string_content_warning])) /\
  (forall ms,
     _tokenize (ArgSequence ms) =
     (flat_map split (string_contents ms),
      sumZ (map (fun s => len (split s)) (string_contents ms)),
      content_warnings ms)) /\
  (forall c ms1 m ms2 parts,
     message_content m = OtherContent parts ->
     count_tokens c (ms1 ++ m :: ms2) = count_tokens c (ms1 ++ ms2)).
Proof.
  split; [|split].
  - intros m parts H. unfold _tokenize, tokenize_message. now rewrite H.
  - intro ms. now rewrite tokenize_sequence, len_flat_map.
  - intros c ms1 m ms2 parts H. rewrite !count_tokens_sequence.
    do 2 f_equal. induction ms1 as [|m1 ms1 IH]; simpl.
    + now rewrite H.
    + now rewrite IH.
Qed.

(** C10. With the cursor at the end of the response list, [create] and
    [create_stream] raise Exhausted and leave the client exactly as it
    was: cursor, current usage, total usage, cached flag and call log. *)
Theorem exhausted_leaves_client_unchanged c a :
  (length (chat_completions c) <= _current_index c)%nat ->
  fst (create c a) = (Raise Exhausted, c) /\
  fst (create_stream c a) = (Raise Exhausted, c) /\
  fst (anext c (GenStart a)) = (Raised Exhausted, c).
Proof.
  intro H. repeat split.
  - now rewrite (create_at_end _ _ H).
  - now rewrite (create_stream_at_end _ _ H).
  - unfold anext. now rewrite (cursor_at_end _ _ H).
Qed.

(** * Further properties of the code *)

(** ** Tokenization *)

Lemma split_from_at_space ch s2 : forall s1 word,
  is_space ch = true ->
  split_from word (s1 ++ ch :: s2) = split_from word s1 ++ split s2.
Proof.
  unfold split. induction s1 as [|c s1 IH]; intros word Hch.
  - simpl. rewrite Hch. now destruct word.
  - simpl. destruct (is_space c).
    + destruct word; [now apply IH|]. simpl. f_equal. now apply IH.
    + now apply IH.
Qed.

(** X1: a whitespace code point inside a text separates its tokens:
    tokenizing the text gives the tokens of the part before it followed
    by the tokens of the part after it, and the two counts added. *)
Theorem tokenize_text_at_separator s1 ch s2 :
  is_space ch = true ->
  fst (fst (_tokenize (ArgStr (s1 ++ ch :: s2)))) =
    fst (fst (_tokenize (ArgStr s1))) ++ fst (fst (_tokenize (ArgStr s2))) /\
  snd (fst (_tokenize (ArgStr (s1 ++ ch :: s2)))) =
    snd (fst (_tokenize (ArgStr s1))) + snd (fst (_tokenize (ArgStr s2))).
Proof.
  intro H. rewrite !tokenize_str. cbn [fst snd].
  assert (E : split (s1 ++ ch :: s2) = split s1 ++ split s2)
    by (apply split_from_at_space; exact H).
  rewrite E. split; [reflexivity | apply len_app].
Qed.

Lemma split_from_nil s : forall word,
  split_from word s = [] -> word = [] /\ blank s = true.
Proof.
  induction s as [|ch s IH]; intros word H.
  - destruct word; [now split | discriminate].
  - simpl in H. simpl. destruct (is_space ch).
    + destruct word; [|discriminate]. destruct (IH [] H) as [_ Hb]. now split.
    + destruct (IH _ H) as [Hw _]. now destruct word.
Qed.

Lemma split_nil_iff_blank s : split s = [] <-> blank s = true.
Proof.
  split.
  - intro H. now destruct (split_from_nil s [] H).
  - unfold split. induction s as [|ch s IH]; intro H; [reflexivity|].
    simpl in H. apply andb_true_iff in H as [Hch Hs].
    simpl. rewrite Hch. now apply IH.
Qed.

(** X2: a text counts zero tokens exactly when it is empty or whitespace
    only. *)
Theorem tokenize_blank_text s :
  snd (fst (_tokenize (ArgStr s))) = 0 <-> blank s = true.
Proof.
  rewrite tokenize_str. cbn [fst snd]. rewrite <- split_nil_iff_blank.
  unfold len. destruct (split s); [now split|].
  split; [simpl; lia | discriminate].
Qed.

(** X3: what a stream of a text reads as, its fragments put end to end,
    is a text that streams as itself: it has the same tokens as the
    original, and its own fragments put end to end give it back
    exactly. *)
Theorem streamed_text_is_stable s :
  split (concat (fragments (split s))) = split s /\
  concat (fragments (split (concat (fragments (split s))))) =
    concat (fragments (split s)).
Proof.
  assert (H : split (concat (fragments (split s))) = split s)
    by (rewrite fragments_concat; apply split_join, split_words).
  split; [exact H | now rewrite H].
Qed.

Lemma Forall_flat_map_words (l : list str) :
  Forall (fun w => is_word w = true) (flat_map split l).
Proof.
  induction l as [|s l IH]; simpl; [constructor|].
  apply Forall_app. split; [apply split_words | exact IH].
Qed.

(** X4: whatever [_tokenize] is given, a string, one message or a
    sequence, the count it returns is the number of tokens it returns,
    and every token is non-empty and free of whitespace. *)
Theorem tokenize_count_and_tokens arg :
  snd (fst (_tokenize arg)) = len (fst (fst (_tokenize arg))) /\
  Forall (fun w => is_word w = true) (fst (fst (_tokenize arg))).
Proof.
  destruct arg as [s|m|ms].
  - rewrite tokenize_str. split; [reflexivity | apply split_words].
  - unfold _tokenize, tokenize_message.
    destruct (message_content m) as [s|parts]; cbn [fst snd].
    + split; [reflexivity | apply split_words].
    + split; [reflexivity | constructor].
  - rewrite tokenize_sequence. cbn [fst snd].
    split; [reflexivity | apply Forall_flat_map_words].
Qed.

Lemma tokenize_one_message m :
  _tokenize (ArgMessage m) =
  match message_content m with
  | StrContent s => (split s, len (split s), [])
  | OtherContent _ => ([], 0, [string_content_warning])
  end.
Proof.
  unfold _tokenize, tokenize_message. now destruct (message_content m).
Qed.

(** X5: tokenizing a sequence of messages is tokenizing each message on
    its own and putting the results together: the tokens are
    concatenated, the counts added, the warnings appended. *)
Theorem tokenize_sequence_by_message ms :
  fst (fst (_tokenize (ArgSequence ms))) =
    flat_map (fun m => fst (fst (_tokenize (ArgMessage m)))) ms /\
  snd (fst (_tokenize (ArgSequence ms))) =
    sumZ (map (fun m => snd (fst (_tokenize (ArgMessage m)))) ms) /\
  snd (_tokenize (ArgSequence ms)) =
    flat_map (fun m => snd (_tokenize (ArgMessage m))) ms.
Proof.
  rewrite tokenize_sequence. cbn [fst snd].
  unfold content_warnings, has_string_content.
  induction ms as [|m ms (IH1 & IH2 & IH3)]; [now repeat split|].
  cbn [string_contents flat_map map filter sumZ fold_right].
  rewrite tokenize_one_message.
  fold (sumZ (map (fun m0 => snd (fst (_tokenize (ArgMessage m0)))) ms)).
  rewrite <- IH1, <- IH2, <- IH3.
  destruct (message_content m) as [s|parts]; cbn [fst snd flat_map negb map app].
  - rewrite len_app. now repeat split.
  - now repeat split.
Qed.

Lemma string_contents_app ms1 ms2 :
  string_contents (ms1 ++ ms2) = string_contents ms1 ++ string_contents ms2.
Proof.
  induction ms1 as [|m ms1 IH]; [reflexivity|].
  simpl. destruct (message_content m); simpl; now rewrite IH.
Qed.

Lemma len_nonneg {A : Type} (l : list A) : 0 <= len l.
Proof. unfold len. lia. Qed.

Lemma count_tokens_nonneg c ms : 0 <= count_tokens c ms.
Proof. rewrite count_tokens_sequence. apply len_nonneg. Qed.

(** X6: [count_tokens] is never negative, does not depend on the client's
    state, and is additive over the concatenation of message lists. *)
Theorem count_tokens_additive c c' ms1 ms2 :
  0 <= count_tokens c ms1 /\
  count_tokens c ms1 = count_tokens c' ms1 /\
  count_tokens c (ms1 ++ ms2) = count_tokens c ms1 + count_tokens c ms2.
Proof.
  split; [apply count_tokens_nonneg|]. split; [reflexivity|].
  rewrite !count_tokens_sequence, string_contents_app, flat_map_app.
  apply len_app.
Qed.

(** ** Requests *)

(** X7: streaming a text entry without any word (empty or whitespace
    only) yields no fragment at all, only the result record, which keeps
    the text as content and reports zero completion tokens. *)
Theorem create_stream_blank_text c a s :
  nth_error (chat_completions c) (_current_index c) = Some (Text s) ->
  blank s = true ->
  exists r c' log,
    create_stream c a = (Ok [Final r], c', log) /\
    content r = StrContent s /\
    completion_tokens (usage r) = 0 /\
    completion_tokens (actual_usage c') = 0.
Proof.
  intros H Hb. rewrite (create_stream_at_text _ _ _ H).
  apply split_nil_iff_blank in Hb.
  exists (text_result c a s). do 2 eexists.
  unfold text_result, served, usage_for. rewrite Hb. now repeat split.
Qed.





(** X10: only the messages of a call matter for what is served: two calls
    with the same messages get the same result and leave the same cursor
    and usage, whatever their tools, tool choice, JSON output setting,
    extra arguments and cancellation token. *)
Theorem create_ignores_other_arguments c a a' :
  messages a = messages a' ->
  fst (fst (create c a)) = fst (fst (create c a')) /\
  fst (create_stream c a) = fst (create_stream c a') /\
  actual_usage (snd (fst (create c a))) = actual_usage (snd (fst (create c a'))) /\
  total_usage (snd (fst (create c a))) = total_usage (snd (fst (create c a'))) /\
  _current_index (snd (fst (create c a))) = _current_index (snd (fst (create c a'))).
Proof.
  intro Hm.
  destruct (cursor_cases c) as [[[s|r] H]|H].
  - rewrite !(create_at_text _ _ _ H), !(create_stream_at_text _ _ _ H).
    unfold text_result, served, usage_for. rewrite Hm. now repeat split.
  - rewrite !(create_at_prebuilt _ _ _ H), !(create_stream_at_prebuilt _ _ _ H).
    unfold served, usage_for. rewrite Hm. now repeat split.
  - rewrite !(create_at_end _ _ H), !(create_stream_at_end _ _ H).
    now repeat split.
Qed.

(** X11: what a request logs: first, when the tool choice is anything
    but "auto", the warning that the tool choice is ignored, also when
    the request then raises; after it, when an entry is served, one
    warning per message whose content is not a string; nothing else.
    [create] and [create_stream] log the same records. *)
Theorem request_warnings c a :
  snd (create c a) =
    match tool_choice a with
    | Auto => []
    | Required | NoChoice | ChosenTool _ =>
        [Warning "tool_choice parameter specified but is ignored in replay mode"]
    end ++
    match fst (fst (create c a)) with
    | Ok _ =>
        map (fun _ => Warning "Token count has been done only on string content")
            (filter (fun m => match message_content m with
                              | StrContent _ => false
                              | OtherContent _ => true
                              end) (messages a))
    | Raise _ => []
    end /\
  snd (create_stream c a) = snd (create c a).
Proof.
  assert (Hw : warn_tool_choice (tool_choice a) =
               match tool_choice a with
               | Auto => []
               | Required | NoChoice | ChosenTool _ =>
                   [Warning "tool_choice parameter specified but is ignored in replay mode"]
               end) by now destruct (tool_choice a).
  assert (Hc : content_warnings (messages a) =
               map (fun _ => Warning "Token count has been done only on string content")
                   (filter (fun m => match message_content m with
                                     | StrContent _ => false
                                     | OtherContent _ => true
                                     end) (messages a))).
  { unfold content_warnings, has_string_content. f_equal.
    apply filter_ext. intro m. now destruct (message_content m). }
  rewrite <- Hw, <- Hc. clear Hw Hc.
  split.
  - destruct (cursor_cases c) as [[[s|r] H]|H].
    + rewrite (create_at_text _ _ _ H). apply request_log_eq.
    + rewrite (create_at_prebuilt _ _ _ H). apply request_log_eq.
    + rewrite (create_at_end _ _ H). cbn [fst snd]. now rewrite app_nil_r.
  - destruct (cursor_cases c) as [[[s|r] H]|H].
    + now rewrite (create_at_text _ _ _ H), (create_stream_at_text _ _ _ H).
    + now rewrite (create_at_prebuilt _ _ _ H), (create_stream_at_prebuilt _ _ _ H).
    + now rewrite (create_at_end _ _ H), (create_stream_at_end _ _ H).
Qed.

(** X12: the cached flag set by [set_cached_bool_value] marks the result
    records the client synthesizes for text entries, and nothing else: a
    pre-built record is returned with its own flag, and cursor and usage
    are what they would be without the call. *)
Theorem set_cached_bool_value_effect c value a :
  (forall s,
     nth_error (chat_completions c) (_current_index c) = Some (Text s) ->
     exists r,
       fst (fst (create (set_cached_bool_value c value) a)) = Ok r /\
       cached r = value /\
       fst (fst (create_stream (set_cached_bool_value c value) a)) =
         Ok (map Fragment (fragments (split s)) ++ [Final r])) /\
  (forall r,
     nth_error (chat_completions c) (_current_index c) = Some (Prebuilt r) ->
     fst (fst (create (set_cached_bool_value c value) a)) = Ok r /\
     fst (fst (create_stream (set_cached_bool_value c value) a)) = Ok [Final r]) /\
  snd (fst (create (set_cached_bool_value c value) a)) =
    set_cached_bool_value (snd (fst (create c a))) value.
Proof.
  split; [|split].
  - intros s H.
    rewrite (create_at_text (set_cached_bool_value c value) a s H).
    rewrite (create_stream_at_text (set_cached_bool_value c value) a s H).
    eexists. now repeat split.
  - intros r H.
    rewrite (create_at_prebuilt (set_cached_bool_value c value) a r H).
    rewrite (create_stream_at_prebuilt (set_cached_bool_value c value) a r H).
    now split.
  - destruct (cursor_cases c) as [[[s|r] H]|H].
    + rewrite (create_at_text (set_cached_bool_value c value) a s H).
      now rewrite (create_at_text _ _ _ H).
    + rewrite (create_at_prebuilt (set_cached_bool_value c value) a r H).
      now rewrite (create_at_prebuilt _ _ _ H).
    + rewrite (create_at_end (set_cached_bool_value c value) a H).
      now rewrite (create_at_end _ _ H).
Qed.

(** ** Streams that are not drawn to their end, or not one at a time *)

Lemma anext_start_in_range c a e :
  nth_error (chat_completions c) (_current_index c) = Some e ->
  snd (fst (anext c (GenStart a))) = set_cur_usage c (usage_for c a e).
Proof.
  intro H. unfold anext.
  rewrite (cursor_in_range _ _ _ H), H, tokenize_sequence.
  unfold usage_for. rewrite count_tokens_sequence.
  destruct e as [s|r]; [now rewrite tokenize_str | reflexivity].
Qed.

(** X13: the cursor and the total usage move only when a stream is resumed
    after its result record. Every other pull, the first one and the one
    that delivers the result record included, leaves the cursor, the total
    usage, the cached flag, the response list and the call log as they
    were, so a stream dropped at its result record counts for nothing and
    the same entry is served again. *)
Theorem abandoned_stream_counts_for_nothing c g :
  g <> GenAfterResult ->
  _current_index (snd (fst (anext c g))) = _current_index c /\
  total_usage (snd (fst (anext c g))) = total_usage c /\
  _cached_bool_value (snd (fst (anext c g))) = _cached_bool_value c /\
  chat_completions (snd (fst (anext c g))) = chat_completions c /\
  create_calls (snd (fst (anext c g))) = create_calls c.
Proof.
  intro Hg. destruct g as [a|s toks i| |]; try congruence; try (now repeat split).
  destruct (cursor_cases c) as [[e H]|H].
  - rewrite (anext_start_in_range _ _ _ H). now repeat split.
  - unfold anext. rewrite (cursor_at_end _ _ H). now repeat split.
Qed.

(** X14: two streams opened on the same pre-built entry before either is
    drawn to its end are both served that entry; drawing both to their
    end moves the cursor by two and adds the usage of the stream opened
    last to the total twice. *)
Theorem interleaved_streams_share_an_entry c a1 a2 r :
  nth_error (chat_completions c) (_current_index c) = Some (Prebuilt r) ->
  let c1 := snd (fst (anext c (GenStart a1))) in
  let c2 := snd (fst (anext c1 (GenStart a2))) in
  let c3 := snd (fst (anext c2 GenAfterResult)) in
  let c4 := snd (fst (anext c3 GenAfterResult)) in
  fst (fst (anext c (GenStart a1))) = Yielded (Final r) GenAfterResult /\
  fst (fst (anext c1 (GenStart a2))) = Yielded (Final r) GenAfterResult /\
  fst (fst (anext c2 GenAfterResult)) = Stopped /\
  fst (fst (anext c3 GenAfterResult)) = Stopped /\
  _current_index c4 = S (S (_current_index c)) /\
  total_usage c4 =
    usage_add (total_usage c)
      (usage_add (usage_for c a2 (Prebuilt r)) (usage_for c a2 (Prebuilt r))).
Proof.
  intros H c1 c2 c3 c4.
  assert (H1 : anext c (GenStart a1) =
                 (Yielded (Final r) GenAfterResult,
                  set_cur_usage c (usage_for c a1 (Prebuilt r)),
                  request_log a1)).
  { unfold anext. rewrite (cursor_in_range _ _ _ H), H, tokenize_sequence.
    unfold usage_for. now rewrite count_tokens_sequence, request_log_eq. }
  assert (H' : nth_error (chat_completions c1) (_current_index c1) = Some (Prebuilt r))
    by (subst c1; now rewrite H1).
  assert (H2 : anext c1 (GenStart a2) =
                 (Yielded (Final r) GenAfterResult,
                  set_cur_usage c1 (usage_for c1 a2 (Prebuilt r)),
                  request_log a2)).
  { unfold anext. rewrite (cursor_in_range _ _ _ H'), H', tokenize_sequence.
    unfold usage_for. now rewrite count_tokens_sequence, request_log_eq. }
  subst c4 c3 c2. rewrite H2. subst c1. rewrite H1. cbn [fst snd].
  repeat split.
  unfold usage_add, usage_for, total_usage. simpl.
  rewrite !count_tokens_sequence. f_equal; lia.
Qed.

(** ** Sessions *)

Lemma create_calls_after c rq e :
  create_calls (after c rq e) =
  create_calls c ++ map call_record (create_args [rq]).
Proof. destruct rq as [a|a]; simpl; [reflexivity | now rewrite app_nil_r]. Qed.

Lemma pending_in_range c e :
  nth_error (chat_completions c) (_current_index c) = Some e ->
  forall rq, pending c = e :: pending (after c rq e).
Proof.
  intros H rq. unfold pending.
  destruct (after_fields c rq e) as (-> & -> & _).
  now apply skipn_nth_error.
Qed.

Lemma pending_at_end c :
  (length (chat_completions c) <= _current_index c)%nat -> pending c = [].
Proof. intro H. unfold pending. now apply skipn_all2. Qed.

Lemma pending_length c :
  length (pending c) = (length (chat_completions c) - _current_index c)%nat.
Proof. unfold pending. apply length_skipn. Qed.


(** X16: after a session the call log is the earlier log followed by
    one entry per [create] call that was served, in order, each holding
    that call's messages, tools, JSON output setting, extra arguments
    and cancellation token; streams and calls that raised leave no trace
    in it. *)
Theorem session_call_log rqs : forall c,
  create_calls (snd (session c rqs)) =
  create_calls c ++
  map (fun a => {| call_messages := messages a;
                   call_tools := tools a;
                   call_json_output := json_output_arg a;
                   call_extra_create_args := extra_create_args a;
                   call_cancellation_token := cancellation_token a |})
      (create_args (firstn (length (pending c)) rqs)).
Proof.
  change (fun a => {| call_messages := messages a;
                      call_tools := tools a;
                      call_json_output := json_output_arg a;
                      call_extra_create_args := extra_create_args a;
                      call_cancellation_token := cancellation_token a |})
    with call_record.
  induction rqs as [|rq rqs IH]; intro c.
  - simpl. rewrite firstn_nil. simpl. now rewrite app_nil_r.
  - rewrite session_cons. cbn [snd].
    destruct (cursor_cases c) as [[e H]|H].
    + destruct (serve_in_range c rq e H) as (rp & -> & _). cbn [snd].
      rewrite IH, (pending_in_range c e H rq), create_calls_after.
      cbn [length firstn]. rewrite <- app_assoc. f_equal.
      rewrite <- map_app. f_equal. now destruct rq.
    + rewrite (serve_at_end _ _ H). cbn [snd].
      rewrite IH, (pending_at_end c H). reflexivity.
Qed.

(** X17: the total usage after a session, in closed form: the total before
    it, plus the token counts of the messages of the requests that were
    served as prompt tokens, plus the completion counts of the entries
    they were served as completion tokens. *)
Theorem session_total_usage_closed_form rqs : forall c,
  total_usage (snd (session c rqs)) =
  usage_add (total_usage c)
    {| prompt_tokens :=
         sumZ (map (fun rq => count_tokens c (messages (request_args rq)))
                   (firstn (length (pending c)) rqs));
       completion_tokens :=
         sumZ (map entry_completion (firstn (length rqs) (pending c))) |}.
Proof.
  induction rqs as [|rq rqs IH]; intro c.
  - simpl. rewrite firstn_nil. simpl. fold usage_zero. now rewrite usage_add_zero_r.
  - rewrite session_cons. cbn [snd].
    destruct (cursor_cases c) as [[e H]|H].
    + destruct (serve_in_range c rq e H) as (rp & -> & _). cbn [snd].
      rewrite IH, (pending_in_range c e H rq).
      destruct (after_fields c rq e) as (_ & _ & _ & _ & ->).
      cbn [length firstn map sumZ fold_right].
      rewrite usage_add_assoc. f_equal.
    + rewrite (serve_at_end _ _ H). cbn [snd].
      rewrite IH, (pending_at_end c H). cbn [length firstn].
      now rewrite !firstn_nil.
Qed.

(** ** Configuration and capacity *)

Lemma anext_static c g :
  chat_completions (snd (fst (anext c g))) = chat_completions c /\
  _model_info (snd (fst (anext c g))) = _model_info c /\
  _total_available_tokens (snd (fst (anext c g))) = _total_available_tokens c /\
  provided_message_count (snd (fst (anext c g))) = provided_message_count c.
Proof.
  destruct g as [a|s toks i| |]; try (now repeat split).
  destruct (cursor_cases c) as [[e H]|H].
  - rewrite (anext_start_in_range _ _ _ H). now repeat split.
  - unfold anext. rewrite (cursor_at_end _ _ H). now repeat split.
Qed.

Lemma serve_static c rq :
  chat_completions (snd (serve c rq)) = chat_completions c /\
  _model_info (snd (serve c rq)) = _model_info c /\
  _total_available_tokens (snd (serve c rq)) = _total_available_tokens c /\
  provided_message_count (snd (serve c rq)) = provided_message_count c.
Proof.
  destruct (cursor_cases c) as [[e H]|H].
  - destruct (serve_in_range c rq e H) as (rp & -> & _). now destruct rq.
  - rewrite (serve_at_end _ _ H). now repeat split.
Qed.

Lemma session_static rqs : forall c,
  chat_completions (snd (session c rqs)) = chat_completions c /\
  _model_info (snd (session c rqs)) = _model_info c.
Proof.
  induction rqs as [|rq rqs IH]; intro c; [now split|].
  rewrite session_cons. cbn [snd].
  destruct (IH (snd (serve c rq))) as [-> ->].
  destruct (serve_static c rq) as (-> & -> & _). now split.
Qed.

(** X18: the exported configuration depends on the arguments the client
    was built from and on nothing done with it since: requests, single
    pulls from a stream, [reset] and [set_cached_bool_value] all leave it
    the same. *)
Theorem config_unchanged_by_use c rqs g value :
  _to_config (snd (session c rqs)) = _to_config c /\
  _to_config (snd (fst (anext c g))) = _to_config c /\
  _to_config (reset c) = _to_config c /\
  _to_config (set_cached_bool_value c value) = _to_config c.
Proof.
  unfold _to_config.
  destruct (session_static rqs c) as [-> ->].
  destruct (anext_static c g) as (-> & -> & _).
  now repeat split.
Qed.

(** X19: a client built from a configuration exports that configuration
    again, with the default descriptor written out when the configuration
    had none; it starts with the cached flag set and the full capacity of
    10000 tokens. In particular the cached flag of a client is not kept
    by exporting and rebuilding it. *)
Theorem from_config_to_config config c :
  _from_config config = Ok c ->
  _to_config c =
    {| config_chat_completions := config_chat_completions config;
       config_model_info :=
         Some match config_model_info config with
              | Some info => info
              | None => default_model_info
              end |} /\
  _cached_bool_value c = true /\
  remaining_tokens c = 10000 /\
  (forall c0, config = _to_config c0 -> _to_config c = _to_config c0).
Proof.
  unfold _from_config, __init__. intro H.
  assert (Hc : c = new_client (config_chat_completions config)
                     match config_model_info config with
                     | Some info => info
                     | None => default_model_info
                     end).
  { destruct (config_model_info config) as [info|].
    - destruct (validate_model_info info); [|discriminate]. now injection H.
    - now injection H. }
  subst c. repeat split. intros c0 ->. reflexivity.
Qed.

Lemma reachable_static c :
  reachable c ->
  _total_available_tokens c = 10000 /\
  provided_message_count c = length (chat_completions c).
Proof.
  induction 1 as [entries info c H|c rq _ IH|c g _ IH|c _ IH|c value _ IH].
  - unfold __init__ in H. destruct info as [info|].
    + destruct (validate_model_info info); [|discriminate].
      injection H as <-. now split.
    + injection H as <-. now split.
  - destruct (serve_static c rq) as (-> & _ & -> & ->). exact IH.
  - destruct (anext_static c g) as (-> & _ & -> & ->). exact IH.
  - exact IH.
  - exact IH.
Qed.

(** X20: on every client, however it has been used, [remaining_tokens] is
    what is left of 10000 once the total prompt and completion tokens
    are taken off, and zero when they exceed it: it is never negative.
    The recorded [provided_message_count] stays the length of the
    response list. *)
Theorem remaining_tokens_of_capacity c :
  reachable c ->
  remaining_tokens c =
    Z.max 0 (10000 - prompt_tokens (total_usage c)
             - completion_tokens (total_usage c)) /\
  0 <= remaining_tokens c /\
  provided_message_count c = length (chat_completions c).
Proof.
  intro Hc. destruct (reachable_static c Hc) as [Hcap Hcount].
  unfold remaining_tokens, total_usage. rewrite Hcap.
  repeat split; [lia | exact Hcount].
Qed.

Lemma remaining_tokens_served c rq e :
  nth_error (chat_completions c) (_current_index c) = Some e ->
  0 <= entry_completion e ->
  remaining_tokens (snd (serve c rq)) =
    Z.max 0 (remaining_tokens c
             - (count_tokens c (messages (request_args rq)) + entry_completion e)) /\
  remaining_tokens (snd (serve c rq)) <= remaining_tokens c.
Proof.
  intros H He.
  destruct (serve_in_range c rq e H) as (rp & -> & _). cbn [snd].
  pose proof (count_tokens_nonneg c (messages (request_args rq))) as Hp.
  assert (Hr : remaining_tokens (after c rq e) =
               Z.max 0 (_total_available_tokens c
                        - (prompt_tokens (_total_usage c)
                           + count_tokens c (messages (request_args rq)))
                        - (completion_tokens (_total_usage c) + entry_completion e))).
  { destruct rq, e; reflexivity. }
  rewrite Hr. unfold remaining_tokens. split; lia.
Qed.

Lemma session_remaining_tokens rqs : forall c,
  Forall (fun e => 0 <= entry_completion e) (pending c) ->
  remaining_tokens (snd (session c rqs)) <= remaining_tokens c.
Proof.
  induction rqs as [|rq rqs IH]; intros c Hall; [apply Z.le_refl|].
  rewrite session_cons. cbn [snd].
  destruct (cursor_cases c) as [[e H]|H].
  - rewrite (pending_in_range c e H rq) in Hall.
    apply Forall_cons_iff in Hall as [He Hall].
    destruct (remaining_tokens_served c rq e H He) as [_ Hle].
    destruct (serve_in_range c rq e H) as (rp & Hs & _).
    rewrite Hs in *. cbn [snd] in *.
    eapply Z.le_trans; [apply IH; exact Hall | exact Hle].
  - rewrite (serve_at_end _ _ H). cbn [snd]. now apply IH.
Qed.

(** X21: serving an entry whose completion count is not negative, as is
    that of every text entry, takes the tokens of the request off the
    remaining capacity, down to zero. Over any session of requests on a
    client whose entries still to be served all have such a count,
    [remaining_tokens] does not increase. *)
Theorem remaining_tokens_after_request c :
  (forall rq e,
     nth_error (chat_completions c) (_current_index c) = Some e ->
     0 <= entry_completion e ->
     remaining_tokens (snd (serve c rq)) =
       Z.max 0 (remaining_tokens c
                - (count_tokens c (messages (request_args rq)) + entry_completion e)) /\
     remaining_tokens (snd (serve c rq)) <= remaining_tokens c) /\
  (forall rqs,
     Forall (fun e => 0 <= entry_completion e) (pending c) ->
     remaining_tokens (snd (session c rqs)) <= remaining_tokens c).
Proof.
  split.
  - intros rq e. apply remaining_tokens_served.
  - intro rqs. apply session_remaining_tokens.
Qed.

(** X22: once the cursor is at the end of the response list, which is
    where it starts when the list is empty, every request raises
    Exhausted and the client stays exactly as it is, however many
    requests follow; only [reset] makes the entries available again, all
    of them. *)
Theorem exhausted_until_reset c rqs :
  (length (chat_completions c) <= _current_index c)%nat ->
  session c rqs = (map (fun _ => (Raise Exhausted, actual_usage c)) rqs, c) /\
  pending (reset c) = chat_completions c.
Proof.
  intro H. split; [|reflexivity].
  induction rqs as [|rq rqs IH]; [reflexivity|].
  rewrite session_cons, (serve_at_end _ _ H). cbn [fst snd].
  now rewrite IH.
Qed.

End Replay.

(** * The claims on sample clients *)

Lemma create_prebuilt_returns_canned_record_witness :
  nth_error [Prebuilt unit (canned unit 10 7)] 0 = Some (Prebuilt unit (canned unit 10 7)) /\
  exists c' log,
    create unit (new_client unit [Prebuilt unit (canned unit 10 7)] default_model_info)
      (ask unit [user unit "one two three"]) = (Ok (canned unit 10 7), c', log) /\
    actual_usage unit c' = {| prompt_tokens := 3; completion_tokens := 7 |} /\
    total_usage unit c' = usage_add usage_zero (actual_usage unit c').
Proof.
  split; [reflexivity|].
  exact (create_prebuilt_returns_canned_record unit
           (new_client unit [Prebuilt unit (canned unit 10 7)] default_model_info)
           (ask unit [user unit "one two three"]) (canned unit 10 7) eq_refl).
Defined.

(** C1 as stated fails: with the record [canned 10 7] at index 0 and the
    3-token prompt "one two three", [create] returns the record with its
    own prompt count 10, not 3. *)
Lemma create_prebuilt_prompt_tokens_not_recomputed :
  ~ (forall (c : Client unit) (a : CallArgs unit) (r : CreateResult unit),
       nth_error (chat_completions unit c) (_current_index unit c)
         = Some (Prebuilt unit r) ->
       completion_tokens (usage unit r) = 7 ->
       count_tokens unit c (messages unit a) = 3 ->
       exists r' c' log,
         create unit c a = (Ok r', c', log) /\
         prompt_tokens (usage unit r') = 3 /\
         completion_tokens (usage unit r') = 7).
Proof.
  intro H.
  destruct (H (new_client unit [Prebuilt unit (canned unit 10 7)] default_model_info)
              (ask unit [user unit "one two three"]) (canned unit 10 7)
              eq_refl eq_refl eq_refl) as (r' & c' & log & Hc & Hp & _).
  vm_compute in Hc. inversion Hc; subst r'. discriminate Hp.
Qed.

Lemma create_stream_text_fragments_witness :
  nth_error [Text unit (py "Hello there")] 0 = Some (Text unit (py "Hello there")) /\
  exists r c' log,
    create_stream unit (new_client unit [Text unit (py "Hello there")] default_model_info)
      (ask unit [user unit "hi"]) =
    (Ok ([Fragment unit (py "Hello "); Fragment unit (py "there")] ++ [Final unit r]),
     c', log) /\
    content unit r = StrContent unit (py "Hello there").
Proof.
  split; [reflexivity|].
  destruct (create_stream_text_fragments unit
              (new_client unit [Text unit (py "Hello there")] default_model_info)
              (ask unit [user unit "hi"]) (py "Hello there") eq_refl)
    as (r & c' & log & Hs & _ & _ & _ & _ & _ & _ & Hc & _).
  exists r, c', log. split; [exact Hs | exact Hc].
Defined.

(** C2 as stated fails: streaming the text "Hello  there", written with
    two spaces, yields "Hello " and "there", which put end to end read
    "Hello there" with one space. *)
Lemma create_stream_does_not_reproduce_spacing :
  ~ (forall (c : Client unit) (a : CallArgs unit) (s : str),
       nth_error (chat_completions unit c) (_current_index unit c)
         = Some (Text unit s) ->
       exists xs c' log,
         create_stream unit c a = (Ok xs, c', log) /\
         concat (yielded_text unit xs) = s).
Proof.
  intro H.
  destruct (H (new_client unit [Text unit (py "Hello  there")] default_model_info)
              (ask unit []) (py "Hello  there") eq_refl)
    as (xs & c' & log & Hs & Hc).
  vm_compute in Hs. inversion Hs; subst xs.
  vm_compute in Hc. discriminate Hc.
Qed.

(** C3 as stated fails when requests overlap. On a client with the single
    entry "Bye", a stream is opened and pulled once, and [create] is
    called before the stream is drawn to its end: both requests are served
    the entry, the second one although the list has one entry only, and
    once the stream has ended the cursor is at 2, past the end of the
    list. *)
Lemma overlapping_requests_pass_the_end :
  let c0 := new_client unit [Text unit (py "Bye")] default_model_info in
  let pull1 := anext unit c0 (GenStart unit (ask unit [])) in
  let call2 := create unit (snd (fst pull1)) (ask unit []) in
  let pull2 := anext unit (snd (fst call2)) (GenLoop unit (py "Bye") [py "Bye"] 1) in
  let pull3 := anext unit (snd (fst pull2)) (GenAfterResult unit) in
  __init__ unit accept_all [Text unit (py "Bye")] None = Ok c0 /\
  fst (fst pull1) =
    Yielded unit (Fragment unit (py "Bye")) (GenLoop unit (py "Bye") [py "Bye"] 1) /\
  (exists r, fst (fst call2) = Ok r /\ content unit r = StrContent unit (py "Bye")) /\
  (exists r, fst (fst pull2) = Yielded unit (Final unit r) (GenAfterResult unit) /\
             content unit r = StrContent unit (py "Bye")) /\
  fst (fst pull3) = Stopped unit /\
  length (chat_completions unit (snd (fst pull3))) = 1%nat /\
  _current_index unit (snd (fst pull3)) = 2%nat /\
  ~ (forall c : Client unit,
       reachable unit accept_all c ->
       (_current_index unit c <= length (chat_completions unit c))%nat).
Proof.
  intros c0 pull1 call2 pull2 pull3.
  split; [reflexivity|]. split; [reflexivity|].
  split; [eexists; split; reflexivity|].
  split; [eexists; split; reflexivity|].
  split; [reflexivity|]. split; [reflexivity|]. split; [reflexivity|].
  intro Hbound.
  assert (H0 : reachable unit accept_all c0)
    by (apply (reach_init unit accept_all [Text unit (py "Bye")] None); reflexivity).
  pose proof (reach_anext unit accept_all c0 (GenStart unit (ask unit [])) H0) as H1.
  pose proof (reach_serve unit accept_all _ (Create unit (ask unit [])) H1) as H2.
  pose proof (reach_anext unit accept_all _ (GenLoop unit (py "Bye") [py "Bye"] 1) H2) as H3.
  pose proof (reach_anext unit accept_all _ (GenAfterResult unit) H3) as H4.
  apply Hbound in H4. vm_compute in H4. lia.
Qed.

Lemma replay_serves_each_entry_once_witness :
  __init__ unit accept_all
    [Text unit (py "Hello there"); Prebuilt unit (canned unit 10 7)] None =
  Ok (new_client unit [Text unit (py "Hello there"); Prebuilt unit (canned unit 10 7)]
        default_model_info) /\
  map (outcome_content unit)
      (fst (session unit
              (new_client unit [Text unit (py "Hello there"); Prebuilt unit (canned unit 10 7)]
                 default_model_info)
              [Create unit (ask unit [user unit "hi"]); CreateStream unit (ask unit [])])) =
  [Some (StrContent unit (py "Hello there")); Some (StrContent unit (py "canned answer"))].
Proof.
  split; [reflexivity|].
  exact (proj1 (proj2
    (replay_serves_each_entry_once unit accept_all
       [Text unit (py "Hello there"); Prebuilt unit (canned unit 10 7)] None
       (new_client unit [Text unit (py "Hello there"); Prebuilt unit (canned unit 10 7)]
          default_model_info)
       [Create unit (ask unit [user unit "hi"]); CreateStream unit (ask unit [])]
       [CreateStream unit (ask unit []); Create unit (ask unit [])]
       (Create unit (ask unit []))
       eq_refl eq_refl eq_refl))).
Defined.

Lemma config_round_trip_witness :
  accept_all default_model_info = Ok tt /\
  exists c',
    _from_config unit accept_all
      (_to_config unit
         (snd (serve unit (hello_bye unit) (Create unit (ask unit [user unit "hi"]))))) = Ok c' /\
    chat_completions unit c' = [Text unit (py "Hello there"); Text unit (py "Bye")] /\
    _current_index unit c' = 0%nat /\
    create_calls unit c' = [].
Proof.
  destruct (config_round_trip unit accept_all
              (snd (serve unit (hello_bye unit) (Create unit (ask unit [user unit "hi"]))))
              (ex_intro _ tt eq_refl)
              (reach_serve unit accept_all _ _
                 (reach_init unit accept_all
                    [Text unit (py "Hello there"); Text unit (py "Bye")] None
                    (hello_bye unit) eq_refl)))
    as (c' & Hc & He & _ & Hi & _ & _ & Hl).
  split; [reflexivity|].
  exists c'. repeat split; assumption.
Defined.

Lemma create_text_entry_witness :
  nth_error (chat_completions unit (hello_bye unit)) 0 = Some (Text unit (py "Hello there")) /\
  exists c' log,
    create unit (hello_bye unit) (ask unit [user unit "What can you do?"]) =
    (Ok {| finish_reason := "stop";
           content := StrContent unit (py "Hello there");
           usage := {| prompt_tokens := 4; completion_tokens := 2 |};
           cached := true |}, c', log).
Proof.
  split; [reflexivity|].
  exact (proj1 (create_text_entry unit) (hello_bye unit)
           (ask unit [user unit "What can you do?"]) (py "Hello there") eq_refl).
Defined.

Lemma reset_rewinds_witness :
  nth_error [Text unit (py "Hello there"); Text unit (py "Bye")] 0
    = Some (Text unit (py "Hello there")) /\
  exists r c' log,
    create unit
      (reset unit (snd (fst (create unit (hello_bye unit) (ask unit [user unit "hi"])))))
      (ask unit []) = (Ok r, c', log) /\
    content unit r = StrContent unit (py "Hello there").
Proof.
  split; [reflexivity|].
  destruct (reset_rewinds unit
              (snd (fst (create unit (hello_bye unit) (ask unit [user unit "hi"])))))
    as (_ & _ & _ & _ & _ & _ & _ & H).
  destruct (H (ask unit []) (Text unit (py "Hello there")) eq_refl)
    as (r & c' & log & Hc & Hr & _).
  exists r, c', log. split; [exact Hc | exact Hr].
Defined.

Lemma tokenize_non_string_content_witness :
  message_content unit (attachment unit) = OtherContent unit [] /\
  _tokenize unit (ArgMessage unit (attachment unit)) = ([], 0, [string_content_warning]) /\
  count_tokens unit (hello_bye unit) [user unit "one two"; attachment unit; user unit "three"] =
  count_tokens unit (hello_bye unit) [user unit "one two"; user unit "three"].
Proof.
  split; [reflexivity|]. split.
  - exact (proj1 (tokenize_non_string_content unit) (attachment unit) [] eq_refl).
  - exact (proj2 (proj2 (tokenize_non_string_content unit)) (hello_bye unit)
             [user unit "one two"] (attachment unit) [user unit "three"] [] eq_refl).
Defined.

Lemma exhausted_leaves_client_unchanged_witness :
  (length (chat_completions unit (new_client unit [] default_model_info))
     <= _current_index unit (new_client unit [] default_model_info))%nat /\
  fst (create unit (new_client unit [] default_model_info) (ask unit [])) =
    (Raise Exhausted, new_client unit [] default_model_info).
Proof.
  split; [apply Nat.le_refl|].
  exact (proj1 (exhausted_leaves_client_unchanged unit
                  (new_client unit [] default_model_info) (ask unit [])
                  (Nat.le_refl _))).
Defined.

(** ** The scenario of the class docstring, evaluated *)

Example hello_bye_total_usage :
  total_usage unit
    (snd (session unit (hello_bye unit)
            [Create unit (ask unit [user unit "What can you do?"]);
             Create unit (ask unit [user unit "What can you do?"])])) =
  {| prompt_tokens := 8; completion_tokens := 3 |}.
Proof. reflexivity. Qed.

Example hello_bye_reset_total_usage :
  total_usage unit
    (reset unit
       (snd (session unit (hello_bye unit)
               [Create unit (ask unit [user unit "What can you do?"]);
                Create unit (ask unit [user unit "What can you do?"])]))) =
  {| prompt_tokens := 0; completion_tokens := 0 |}.
Proof. reflexivity. Qed.

Example hello_bye_stream :
  fst (fst (create_stream unit (hello_bye unit) (ask unit []))) =
  Ok [Fragment unit (py "Hello "); Fragment unit (py "there");
      Final unit {| finish_reason := "stop";
                    content := StrContent unit (py "Hello there");
                    usage := {| prompt_tokens := 0; completion_tokens := 2 |};
                    cached := true |}].
Proof. reflexivity. Qed.

Example hello_bye_remaining_tokens :
  remaining_tokens unit
    (snd (session unit (hello_bye unit)
            [Create unit (ask unit [user unit "What can you do?"])])) = 9994.
Proof. reflexivity. Qed.

(** ** The further properties on sample clients *)

Lemma tokenize_text_at_separator_witness :
  is_space 9%N = true /\
  fst (fst (_tokenize unit (ArgStr unit (py "Hello" ++ 9%N :: py "there")))) =
    [py "Hello"; py "there"].
Proof.
  split; [reflexivity|].
  exact (proj1 (tokenize_text_at_separator unit (py "Hello") 9%N (py "there") eq_refl)).
Defined.

Lemma create_stream_blank_text_witness :
  blank (py "   ") = true /\
  exists r c' log,
    create_stream unit (new_client unit [Text unit (py "   ")] default_model_info)
      (ask unit [user unit "hi"]) = (Ok [Final unit r], c', log) /\
    content unit r = StrContent unit (py "   ") /\
    completion_tokens (usage unit r) = 0.
Proof.
  split; [reflexivity|].
  destruct (create_stream_blank_text unit
              (new_client unit [Text unit (py "   ")] default_model_info)
              (ask unit [user unit "hi"]) (py "   ") eq_refl eq_refl)
    as (r & c' & log & Hs & Hc & Hk & _).
  exists r, c', log. repeat split; assumption.
Defined.


Lemma create_ignores_other_arguments_witness :
  fst (fst (create unit (hello_bye unit) (ask unit [user unit "hi"]))) =
  fst (fst (create unit (hello_bye unit)
              {| messages := [user unit "hi"];
                 tools := [tt];
                 tool_choice := Required unit;
                 json_output_arg := Some tt;
                 extra_create_args := [(py "seed", tt)];
                 cancellation_token := Some tt |})).
Proof.
  exact (proj1 (create_ignores_other_arguments unit (hello_bye unit)
                  (ask unit [user unit "hi"])
                  {| messages := [user unit "hi"];
                     tools := [tt];
                     tool_choice := Required unit;
                     json_output_arg := Some tt;
                     extra_create_args := [(py "seed", tt)];
                     cancellation_token := Some tt |}
                  eq_refl)).
Defined.

Lemma set_cached_bool_value_effect_witness :
  exists r,
    fst (fst (create unit (set_cached_bool_value unit (hello_bye unit) false)
                (ask unit []))) = Ok r /\
    cached unit r = false.
Proof.
  destruct (proj1 (set_cached_bool_value_effect unit (hello_bye unit) false (ask unit []))
              (py "Hello there") eq_refl) as (r & Hr & Hc & _).
  exists r. split; assumption.
Defined.

Lemma abandoned_stream_counts_for_nothing_witness :
  GenStart unit (ask unit [user unit "hi"]) <> GenAfterResult unit /\
  _current_index unit
    (snd (fst (anext unit (hello_bye unit) (GenStart unit (ask unit [user unit "hi"])))))
  = 0%nat.
Proof.
  split; [discriminate|].
  refine (proj1 (abandoned_stream_counts_for_nothing unit (hello_bye unit)
                   (GenStart unit (ask unit [user unit "hi"])) _)).
  discriminate.
Defined.

Lemma interleaved_streams_share_an_entry_witness :
  nth_error [Prebuilt unit (canned unit 10 7)] 0 = Some (Prebuilt unit (canned unit 10 7)) /\
  _current_index unit
    (snd (fst (anext unit
      (snd (fst (anext unit
        (snd (fst (anext unit
          (snd (fst (anext unit
            (new_client unit [Prebuilt unit (canned unit 10 7)] default_model_info)
            (GenStart unit (ask unit [user unit "one"])))))
          (GenStart unit (ask unit [user unit "one two"])))))
        (GenAfterResult unit))))
      (GenAfterResult unit)))) = 2%nat.
Proof.
  split; [reflexivity|].
  destruct (interleaved_streams_share_an_entry unit
              (new_client unit [Prebuilt unit (canned unit 10 7)] default_model_info)
              (ask unit [user unit "one"]) (ask unit [user unit "one two"])
              (canned unit 10 7) eq_refl)
    as (_ & _ & _ & _ & Hi & _).
  exact Hi.
Defined.


Lemma from_config_to_config_witness :
  _from_config unit accept_all
    {| config_chat_completions := [Text unit (py "Bye")];
       config_model_info := None |} =
  Ok (new_client unit [Text unit (py "Bye")] default_model_info) /\
  _to_config unit (new_client unit [Text unit (py "Bye")] default_model_info) =
    {| config_chat_completions := [Text unit (py "Bye")];
       config_model_info := Some default_model_info |}.
Proof.
  split; [reflexivity|].
  exact (proj1 (from_config_to_config unit accept_all
                  {| config_chat_completions := [Text unit (py "Bye")];
                     config_model_info := None |}
                  (new_client unit [Text unit (py "Bye")] default_model_info)
                  eq_refl)).
Defined.

Lemma remaining_tokens_of_capacity_witness :
  reachable unit accept_all
    (snd (serve unit (hello_bye unit) (Create unit (ask unit [user unit "hi"])))) /\
  remaining_tokens unit
    (snd (serve unit (hello_bye unit) (Create unit (ask unit [user unit "hi"])))) = 9997.
Proof.
  assert (Hr : reachable unit accept_all
                 (snd (serve unit (hello_bye unit)
                         (Create unit (ask unit [user unit "hi"])))))
    by exact (reach_serve unit accept_all _ _
                (reach_init unit accept_all
                   [Text unit (py "Hello there"); Text unit (py "Bye")] None
                   (hello_bye unit) eq_refl)).
  split; [exact Hr|].
  exact (proj1 (remaining_tokens_of_capacity unit accept_all _ Hr)).
Defined.

Lemma remaining_tokens_after_request_witness :
  nth_error (chat_completions unit (hello_bye unit)) 0
    = Some (Text unit (py "Hello there")) /\
  0 <= entry_completion unit (Text unit (py "Hello there")) /\
  remaining_tokens unit
    (snd (serve unit (hello_bye unit) (CreateStream unit (ask unit [user unit "hi"]))))
  <= remaining_tokens unit (hello_bye unit) /\
  Forall (fun e => 0 <= entry_completion unit e) (pending unit (hello_bye unit)) /\
  remaining_tokens unit
    (snd (session unit (hello_bye unit)
            [Create unit (ask unit [user unit "hi"]);
             CreateStream unit (ask unit [user unit "one two"]);
             Create unit (ask unit [])]))
  <= remaining_tokens unit (hello_bye unit).
Proof.
  assert (Hall : Forall (fun e => 0 <= entry_completion unit e)
                   (pending unit (hello_bye unit)))
    by (repeat constructor; discriminate).
  split; [reflexivity|]. split; [discriminate|]. split; [|split; [exact Hall|]].
  - refine (proj2 (proj1 (remaining_tokens_after_request unit (hello_bye unit))
                     (CreateStream unit (ask unit [user unit "hi"]))
                     (Text unit (py "Hello there")) eq_refl _)).
    discriminate.
  - exact (proj2 (remaining_tokens_after_request unit (hello_bye unit)) _ Hall).
Defined.

Lemma exhausted_until_reset_witness :
  (length (chat_completions unit (new_client unit [] default_model_info))
     <= _current_index unit (new_client unit [] default_model_info))%nat /\
  session unit (new_client unit [] default_model_info)
    [Create unit (ask unit []); CreateStream unit (ask unit [])] =
  ([(Raise Exhausted, usage_zero); (Raise Exhausted, usage_zero)],
   new_client unit [] default_model_info).
Proof.
  split; [apply Nat.le_refl|].
  exact (proj1 (exhausted_until_reset unit (new_client unit [] default_model_info)
                  [Create unit (ask unit []); CreateStream unit (ask unit [])]
                  (Nat.le_refl _))).
Defined.
